(** * Redis cache provider (aah framework): model of the adapter and its properties

    The adapter ([Provider], [redisCache] and the six cache operations) is
    embedded from the current revision of the provider source (the one whose
    [GetOrPut], [Delete] and [Flush] return an [error]).  Everything the
    package imports is kept at the boundary:

    - [encoding/gob] is a parameter (class [Gob]): an encoder that appends
      bytes to a writer and may fail, and a decoder;
    - the go-redis client is an executable model of one logical database with
      a schedule of transport faults and a trace of the commands sent;
    - [sync.Pool] is a free list of byte buffers;
    - the logger is the list of lines written with [Errorf]. *)

From Stdlib Require Import ZArith NArith Strings.String Strings.Ascii Strings.Byte.
From stdpp Require Import base option list gmap strings.

Local Open Scope string_scope.
Local Open Scope Z_scope.

(** ** Go basics *)

(** [time.Duration]: a signed count of nanoseconds. *)
Definition Duration := Z.

(** A Go [error] value is observed through [err.Error()] only; [None] is
    the nil error. *)
Definition error := option string.

(** Contents of a [bytes.Buffer] / a [[]byte]. *)
Definition Buffer := list byte.

(** Outcome of a call that either fills its destination or reports an error. *)
Inductive result (A : Type) : Type :=
| OK (a : A)
| Err (msg : string).
Arguments OK {A} a.
Arguments Err {A} msg.

(** [s[n:]] on a Go string. *)
Fixpoint string_drop (n : nat) (s : string) : string :=
  match n, s with
  | O, _ => s
  | S n', String _ s' => string_drop n' s'
  | S _, EmptyString => EmptyString
  end.

(** ** Package [cache] (imported): the cache configuration *)

Module cache.

(** [cache.EvictionMode] is a [uint8]; the zero value is what a [Config]
    literal without the field carries. *)
Definition EvictionModeT := N.
Definition EvictionModeTTL : EvictionModeT := 1%N.
Definition EvictionModeNoTTL : EvictionModeT := 2%N.
Definition EvictionModeSlide : EvictionModeT := 3%N.

Record Config : Type := mkConfig {
  Name : string;
  ProviderName : string;
  EvictionMode : EvictionModeT
}.

End cache.

(** ** Package [redis] (imported go-redis client) *)

Module goredis.

(** The error the client returns for a nil reply ([redis.Nil]). *)
Definition Nil : string := "redis: nil".

(** What the server holds under a key: the payload and the time to live
    last requested for it.  The model has no clock: entries are never
    removed by the passage of time. *)
Record Stored : Type := mkStored {
  payload : list byte;
  ttl : Duration
}.

Inductive Cmd : Type :=
| CmdGet (k : string)
| CmdSet (k : string) (v : list byte) (d : Duration)
| CmdDel (k : string)
| CmdExists (k : string)
| CmdExpire (k : string) (d : Duration)
| CmdFlushDB.

(** A client connected to one logical database.  [faults] schedules the
    outcome of the coming round trips ([Some msg]: the round trip fails
    with that error and the database is left alone; [None], or an
    exhausted schedule: it goes through).  [issued] is the trace of the
    commands sent so far, oldest first. *)
Record Client : Type := mkClient {
  db : gmap string Stored;
  faults : list (option string);
  issued : list Cmd
}.

(** One round trip: the command is recorded and the next scheduled fault
    is consumed. *)
Definition roundTrip (c : Cmd) (cl : Client) : error * Client :=
  match faults cl with
  | f :: fs => (f, mkClient (db cl) fs (issued cl ++ [c]))
  | [] => (None, mkClient (db cl) [] (issued cl ++ [c]))
  end.

Definition withDb (m : gmap string Stored) (cl : Client) : Client :=
  mkClient m (faults cl) (issued cl).

(** [client.Get(k).Bytes()] *)
Definition Get (k : string) (cl : Client) : (list byte * error) * Client :=
  let '(f, cl') := roundTrip (CmdGet k) cl in
  match f with
  | Some e => (([], Some e), cl')
  | None =>
      match db cl' !! k with
      | Some s => ((payload s, None), cl')
      | None => (([], Some Nil), cl')
      end
  end.

(** [client.Set(k, v, d).Err()] *)
Definition Set_ (k : string) (v : list byte) (d : Duration) (cl : Client)
  : error * Client :=
  let '(f, cl') := roundTrip (CmdSet k v d) cl in
  match f with
  | Some e => (Some e, cl')
  | None => (None, withDb (<[k := mkStored v d]> (db cl')) cl')
  end.

(** [client.Del(k).Err()]: deleting a key that is not there is a reply
    of 0, not an error. *)
Definition Del (k : string) (cl : Client) : error * Client :=
  let '(f, cl') := roundTrip (CmdDel k) cl in
  match f with
  | Some e => (Some e, cl')
  | None => (None, withDb (delete k (db cl')) cl')
  end.

(** [client.Exists(k).Result()] *)
Definition Exists (k : string) (cl : Client) : (Z * error) * Client :=
  let '(f, cl') := roundTrip (CmdExists k) cl in
  match f with
  | Some e => ((0, Some e), cl')
  | None => ((match db cl' !! k with Some _ => 1 | None => 0 end, None), cl')
  end.

(** [client.Expire(k, d).Err()] *)
Definition Expire (k : string) (d : Duration) (cl : Client) : error * Client :=
  let '(f, cl') := roundTrip (CmdExpire k d) cl in
  match f with
  | Some e => (Some e, cl')
  | None =>
      (None, withDb (alter (fun s => mkStored (payload s) d) k (db cl')) cl')
  end.

(** [client.FlushDB().Err()] *)
Definition FlushDB (cl : Client) : error * Client :=
  let '(f, cl') := roundTrip CmdFlushDB cl in
  match f with
  | Some e => (Some e, cl')
  | None => (None, withDb ∅ cl')
  end.

End goredis.

(** ** Package [encoding/gob] (imported): the entry codec *)

(** The unit stored in the remote service.  [V] is an [interface{}]:
    [None] is the nil interface, [Some x] a value of concrete type
    [typeOf x]. *)
Record entry (Data : Type) : Type := mkEntry {
  D : Duration;
  V : option Data
}.
Arguments mkEntry {Data} D V.
Arguments D {Data} e.
Arguments V {Data} e.

(** What the adapter uses of gob, for application values of type [Data].
    Both directions consult gob's registry of type names (the set filled by
    [gob.Register]).  [gobEncode reg e] is a fresh encoder's [Encode(e)]: the
    bytes it writes to its writer, and its error.  [gobDecode reg bs] is a
    fresh decoder's [Decode(&e)] on a reader over [bs]. *)
Class Gob (Data : Type) : Type := mkGob {
  typeOf : Data -> string;
  gobEncode : gset string -> entry Data -> list byte * error;
  gobDecode : gset string -> list byte -> result (entry Data)
}.

(** ** State shared by the adapter's operations *)

(** [Provider].  [cfg] is the pointer target of [p.cfg]: it is nil until
    the first [Create], and every [redisCache] is built by [Create], after
    the assignment.  [appCfg] and [clientOpts] are read by [Init] only. *)
Record Provider : Type := mkProvider {
  name : string;
  logger : list string;
  cfg : cache.Config;
  client : goredis.Client
}.

(** The provider together with the package-level state the operations
    touch: gob's type registry and [bufPool]. *)
Record World : Type := mkWorld {
  provider : Provider;
  gobTypes : gset string;
  bufPool : list Buffer
}.

Definition withClient (cl : goredis.Client) (w : World) : World :=
  mkWorld (mkProvider (name (provider w)) (logger (provider w))
                      (cfg (provider w)) cl)
          (gobTypes w) (bufPool w).

Definition withLogger (l : list string) (w : World) : World :=
  mkWorld (mkProvider (name (provider w)) l (cfg (provider w))
                      (client (provider w)))
          (gobTypes w) (bufPool w).

Definition withCfg (c : cache.Config) (w : World) : World :=
  mkWorld (mkProvider (name (provider w)) (logger (provider w)) c
                      (client (provider w)))
          (gobTypes w) (bufPool w).

Definition withPool (p : list Buffer) (w : World) : World :=
  mkWorld (provider w) (gobTypes w) p.

(** Observations on a world. *)
Definition theDb (w : World) : gmap string goredis.Stored :=
  goredis.db (client (provider w)).
Definition theFaults (w : World) : list (option string) :=
  goredis.faults (client (provider w)).
Definition sent (w : World) : list goredis.Cmd :=
  goredis.issued (client (provider w)).
Definition logged (w : World) : list string := logger (provider w).

(** State passing, with the notation of a small state monad. *)
Definition M (A : Type) : Type := World -> A * World.

Definition ret {A} (a : A) : M A := fun w => (a, w).
Definition bind {A B} (m : M A) (f : A -> M B) : M B :=
  fun w => let '(a, w') := m w in f a w'.

Declare Scope go_scope.
Delimit Scope go_scope with go.
Notation "x <- m ;; k" := (bind m (fun x => k))
  (at level 100, m at next level, right associativity) : go_scope.
Notation "m ;;; k" := (bind m (fun _ => k))
  (at level 100, right associativity) : go_scope.

Definition gets {A} (f : World -> A) : M A := fun w => (f w, w).

(** A call on [r.p.client]. *)
Definition onClient {A} (f : goredis.Client -> A * goredis.Client) : M A :=
  fun w => let '(a, cl) := f (client (provider w)) in (a, withClient cl w).

(** [r.p.logger.Errorf], with the line already formatted. *)
Definition Errorf (line : string) : M unit :=
  fun w => (tt, withLogger (logger (provider w) ++ [line]) w).

(** ** Helper methods *)

(** [bufPool.Get()]: a pooled buffer when there is one, else [New()]. *)
Definition acquireBuffer : M Buffer :=
  fun w =>
    match bufPool w with
    | b :: rest => (b, withPool rest w)
    | [] => ([], w)
    end.

(** [releaseBuffer(b)]; [None] is the nil pointer. *)
Definition releaseBuffer (b : option Buffer) : M unit :=
  fun w =>
    match b with
    | Some _ => (tt, withPool ([] :: bufPool w) w)
    | None => (tt, w)
    end.

(** [fmt.Sprintf("aah/cache/%s: key(%s) %v", n, k, err)] *)
Definition fmtKeyErr (n k msg : string) : string :=
  "aah/cache/" +:+ n +:+ ": key(" +:+ k +:+ ") " +:+ msg.

(** [fmt.Sprintf("aah/cache/%s: %v", n, err)] *)
Definition fmtErr (n msg : string) : string :=
  "aah/cache/" +:+ n +:+ ": " +:+ msg.

Definition notacacheMiss (err : error) : error :=
  match err with
  | Some msg => if String.eqb msg "redis: nil" then None else err
  | None => err
  end.

(** ** [redisCache]: the cache operations *)

(** [redisCache].  The field [p] points at the provider of the world the
    operations run in: every handle reads [r.p.cfg], [r.p.client] and
    [r.p.logger] from that one shared provider. *)
Record redisCache : Type := mkRedisCache {
  keyPrefix : string
}.

Local Open Scope go_scope.

(** [Provider.Create] *)
Definition Create (c : cache.Config) : M (redisCache * error) :=
  fun w =>
    let w' := withCfg c w in
    let r := mkRedisCache (cache.Name (cfg (provider w')) +:+ "-") in
    ((r, None), w').

(** [redisCache.Name] *)
Definition Name (r : redisCache) : M string :=
  fun w => (cache.Name (cfg (provider w)), w).

Section Adapter.

Context {Data : Type} `{Gob Data}.

(** [redisCache.Get] *)
Definition Get (r : redisCache) (k : string) : M (option Data) :=
  let k := keyPrefix r +:+ k in
  x <- onClient (goredis.Get k) ;;
  let '(v, err) := x in
  match err with
  | Some msg =>
      (match notacacheMiss err with
       | Some _ =>
           n <- Name r ;;
           Errorf (fmtKeyErr n (string_drop (String.length (keyPrefix r)) k) msg)
       | None => ret tt
       end) ;;;
      ret None
  | None =>
      reg <- gets gobTypes ;;
      match gobDecode reg v with
      | Err msg =>
          n <- Name r ;;
          Errorf (fmtErr n msg) ;;;
          ret None
      | OK e =>
          c <- gets (fun w => cfg (provider w)) ;;
          (if decide (cache.EvictionMode c = cache.EvictionModeSlide) then
             err <- onClient (goredis.Expire k (D e)) ;;
             match err with
             | Some msg =>
                 n <- Name r ;;
                 Errorf (fmtKeyErr n (string_drop (String.length (keyPrefix r)) k) msg)
             | None => ret tt
             end
           else ret tt) ;;;
          ret (V e)
      end
  end.

(** [redisCache.Put] *)
Definition Put (r : redisCache) (k : string) (v : option Data) (d : Duration)
  : M error :=
  let e := mkEntry d v in
  buf <- acquireBuffer ;;
  reg <- gets gobTypes ;;
  let '(out, err) := gobEncode reg e in
  let buf := (buf ++ out)%list in
  match err with
  | Some msg =>
      n <- Name r ;;
      ret (Some (fmtErr n msg))
  | None =>
      cmdErr <- onClient (goredis.Set_ (keyPrefix r +:+ k) buf d) ;;
      releaseBuffer (Some buf) ;;;
      ret cmdErr
  end.

(** [redisCache.GetOrPut] *)
Definition GetOrPut (r : redisCache) (k : string) (v : option Data) (d : Duration)
  : M (option Data * error) :=
  ev <- Get r k ;;
  match ev with
  | None =>
      err <- Put r k v d ;;
      match err with
      | Some _ => ret (None, err)
      | None => ret (v, None)
      end
  | Some _ => ret (ev, None)
  end.

(** [redisCache.Delete] *)
Definition Delete (r : redisCache) (k : string) : M error :=
  err <- onClient (goredis.Del (keyPrefix r +:+ k)) ;;
  match notacacheMiss err, err with
  | Some _, Some msg =>
      n <- Name r ;;
      ret (Some (fmtKeyErr n k msg))
  | _, _ => ret None
  end.

(** [redisCache.Exists] *)
Definition Exists (r : redisCache) (k : string) : M bool :=
  x <- onClient (goredis.Exists (keyPrefix r +:+ k)) ;;
  let '(res, err) := x in
  match err with
  | Some msg =>
      n <- Name r ;;
      Errorf (fmtKeyErr n k msg) ;;;
      ret false
  | None => ret (res =? 1)
  end.

(** [redisCache.Flush] *)
Definition Flush (r : redisCache) : M error :=
  err <- onClient goredis.FlushDB ;;
  match err with
  | Some msg =>
      n <- Name r ;;
      ret (Some (fmtErr n msg))
  | None => ret None
  end.

End Adapter.

(** ** The earlier revision of the operations ([redis.go])

    The file [redis.go] holds an earlier revision of the same methods, the
    one [redis_test.go] was written against: nothing is logged, [Put]
    formats its error without the cache name, and [GetOrPut] has a single
    result. *)

Module Legacy.
Section Legacy.

Context {Data : Type} `{Gob Data}.

Definition Get (r : redisCache) (k : string) : M (option Data) :=
  let k := keyPrefix r +:+ k in
  x <- onClient (goredis.Get k) ;;
  let '(v, err) := x in
  match err with
  | Some _ => ret None
  | None =>
      reg <- gets gobTypes ;;
      match gobDecode reg v with
      | Err _ => ret None
      | OK e =>
          c <- gets (fun w => cfg (provider w)) ;;
          (if decide (cache.EvictionMode c = cache.EvictionModeSlide) then
             onClient (goredis.Expire k (D e)) ;;; ret tt
           else ret tt) ;;;
          ret (V e)
      end
  end.

Definition Put (r : redisCache) (k : string) (v : option Data) (d : Duration)
  : M error :=
  let e := mkEntry d v in
  buf <- acquireBuffer ;;
  reg <- gets gobTypes ;;
  let '(out, err) := gobEncode reg e in
  let buf := (buf ++ out)%list in
  match err with
  | Some msg => ret (Some ("aah/cache: " +:+ msg))
  | None =>
      cmdErr <- onClient (goredis.Set_ (keyPrefix r +:+ k) buf d) ;;
      releaseBuffer (Some buf) ;;;
      ret cmdErr
  end.

Definition GetOrPut (r : redisCache) (k : string) (v : option Data) (d : Duration)
  : M (option Data) :=
  ev <- Get r k ;;
  match ev with
  | None => Put r k v d ;;; ret v
  | Some _ => ret ev
  end.

(** [redisCache.Delete]: the reply is dropped. *)
Definition Delete (r : redisCache) (k : string) : M unit :=
  onClient (goredis.Del (keyPrefix r +:+ k)) ;;; ret tt.

(** [redisCache.Exists] *)
Definition Exists (r : redisCache) (k : string) : M bool :=
  x <- onClient (goredis.Exists (keyPrefix r +:+ k)) ;;
  let '(res, err) := x in
  ret (match err with
       | None => res =? 1
       | Some _ => false
       end).

(** [redisCache.Flush]: the reply is dropped. *)
Definition Flush (r : redisCache) : M unit :=
  onClient goredis.FlushDB ;;; ret tt.

End Legacy.
End Legacy.

(** ** Sequences of calls *)

Section Runs.

Context {Data : Type} `{Gob Data}.

(** One call on the package: a provider or cache method, or
    [gob.Register] for a type name. *)
Inductive Op : Type :=
| OpCreate (c : cache.Config)
| OpRegister (ty : string)
| OpName (r : redisCache)
| OpGet (r : redisCache) (k : string)
| OpPut (r : redisCache) (k : string) (v : option Data) (d : Duration)
| OpGetOrPut (r : redisCache) (k : string) (v : option Data) (d : Duration)
| OpDelete (r : redisCache) (k : string)
| OpExists (r : redisCache) (k : string)
| OpFlush (r : redisCache).

Definition step (o : Op) (w : World) : World :=
  match o with
  | OpCreate c => snd (Create c w)
  | OpRegister ty => mkWorld (provider w) ({[ty]} ∪ gobTypes w) (bufPool w)
  | OpName r => snd (Name r w)
  | OpGet r k => snd (Get r k w)
  | OpPut r k v d => snd (Put r k v d w)
  | OpGetOrPut r k v d => snd (GetOrPut r k v d w)
  | OpDelete r k => snd (Delete r k w)
  | OpExists r k => snd (Exists r k w)
  | OpFlush r => snd (Flush r w)
  end.

Definition run (ops : list Op) (w : World) : World :=
  fold_left (fun w o => step o w) ops w.

End Runs.

(** ** Auxiliary notions used in the statements *)

(** The physical key a handle uses for a logical key. *)
Definition physKey (r : redisCache) (k : string) : string := keyPrefix r +:+ k.

(** The handle [Create] returns. *)
Definition handle (c : cache.Config) (w : World) : redisCache :=
  fst (fst (Create c w)).

(** The outcome scheduled for the next round trip. *)
Definition nextFault (w : World) : error :=
  match theFaults w with
  | f :: _ => f
  | [] => None
  end.

(** The reply the client gives to a read of [r]'s key [k] in world [w]. *)
Definition readReply (r : redisCache) (k : string) (w : World) : list byte * error :=
  fst (goredis.Get (physKey r k) (client (provider w))).

(** The world once that read has been answered. *)
Definition afterRead (r : redisCache) (k : string) (w : World) : World :=
  withClient (snd (goredis.Get (physKey r k) (client (provider w)))) w.

(** Every pooled buffer is empty. *)
Definition pool_clean (w : World) : Prop :=
  Forall (fun b : Buffer => b = []) (bufPool w).

(** The concrete type of an interface value is known to gob. *)
Definition registered {Data : Type} `{Gob Data} (reg : gset string) (v : option Data) : Prop :=
  match v with
  | Some x => typeOf x ∈ reg
  | None => True
  end.

(** gob's contract on interface values: a value whose concrete type was
    not registered is refused by the encoder. *)
Definition gob_refuses_unregistered (Data : Type) `{Gob Data} : Prop :=
  forall (reg : gset string) (d : Duration) (x : Data),
    typeOf x ∉ reg -> exists msg, snd (gobEncode reg (mkEntry d (Some x))) = Some msg.

(** gob's round trip at one entry: what the encoder wrote for [e] decodes
    to [e]. *)
Definition gob_round_trip_at {Data : Type} `{Gob Data} (reg : gset string) (e : entry Data) : Prop :=
  registered reg (V e) ->
  forall out, gobEncode reg e = (out, None) -> gobDecode reg out = OK e.



Definition chars : string -> list ascii := list_ascii_of_string.

(** [p] is a prefix of [q]. *)
Definition is_prefix (p q : string) : Prop := exists s, q = p +:+ s.

(** ** A small concrete instance

    Application values, a codec with the interface of [Gob] and a starting
    world, on which the operations can be run.  The codec frames an entry
    as the 8 bytes of [D] (little endian, two's complement), a tag byte for
    the concrete type of [V] and the value's bytes; like gob it refuses an
    interface value whose type name is not in the registry, after it has
    already written the header. *)

Module Demo.

Inductive value : Type :=
| VInt (z : Z)
| VString (s : string)
| VSample (Name : string) (Present : bool).

Definition typeName (x : value) : string :=
  match x with
  | VInt _ => "int"
  | VString _ => "string"
  | VSample _ _ => "redis.sample"
  end.

Definition byte_of_Z (z : Z) : byte :=
  match Byte.of_N (Z.to_N z) with
  | Some b => b
  | None => x00
  end.

Fixpoint le_bytes (n : nat) (z : Z) : list byte :=
  match n with
  | O => []
  | S n' => byte_of_Z (z mod 256) :: le_bytes n' (z / 256)
  end.

Fixpoint le_value (bs : list byte) : Z :=
  match bs with
  | [] => 0
  | b :: rest => Z.of_N (Byte.to_N b) + 256 * le_value rest
  end.

Definition int64_bytes (z : Z) : list byte := le_bytes 8 (z mod 2 ^ 64).

Definition int64_value (bs : list byte) : Z :=
  let u := le_value bs in
  if 2 ^ 63 <=? u then u - 2 ^ 64 else u.

Definition body (x : value) : list byte :=
  match x with
  | VInt z => x01 :: int64_bytes z
  | VString s => x02 :: list_byte_of_string s
  | VSample n p => x03 :: (if p then x01 else x00) :: list_byte_of_string n
  end.

Definition encode (reg : gset string) (e : entry value) : list byte * error :=
  match V e with
  | None => ((int64_bytes (D e) ++ [x00])%list, None)
  | Some x =>
      if decide (typeName x ∈ reg)
      then ((int64_bytes (D e) ++ body x)%list, None)
      else (int64_bytes (D e),
            Some ("gob: type not registered for interface: " +:+ typeName x))
  end.

Definition decode (reg : gset string) (bs : list byte) : result (entry value) :=
  let d := int64_value (take 8 bs) in
  match drop 8 bs with
  | x00 :: _ => OK (mkEntry d None)
  | x01 :: rest => OK (mkEntry d (Some (VInt (int64_value rest))))
  | x02 :: rest => OK (mkEntry d (Some (VString (string_of_list_byte rest))))
  | x03 :: p :: rest =>
      if decide ("redis.sample" ∈ reg)
      then OK (mkEntry d (Some (VSample (string_of_list_byte rest)
                                        (negb (Byte.eqb p x00)))))
      else Err "gob: name not registered for interface: redis.sample"
  | [] => Err "EOF"
  | _ => Err "gob: bad data"
  end.

#[global] Instance gob : Gob value := mkGob value typeName encode decode.

(** gob's registry as the provider's [Init] leaves it: the basic types
    and [entry]. *)
Definition basicTypes : gset string := {["int"; "string"; "redis.entry"]}.

Definition cfg1 : cache.Config := cache.mkConfig "cache1" "redis1" 0%N.
Definition cfgSlide : cache.Config :=
  cache.mkConfig "addgetcache" "redis1" cache.EvictionModeSlide.

(** A connected provider on an empty database, nothing pooled, no fault
    scheduled. *)
Definition world0 : World :=
  mkWorld (mkProvider "redis1" [] cfg1 (goredis.mkClient ∅ [] []))
          basicTypes [].

Definition seconds (n : Z) : Duration := n * 1000000000.

(** Two caches of one provider whose names differ while the prefix of
    the first is a prefix of the prefix of the second. *)
Definition cfgA : cache.Config := cache.mkConfig "a" "redis1" 0%N.
Definition cfgB : cache.Config := cache.mkConfig "a-b" "redis1" 0%N.

Definition withFaults (fs : list (option string)) (w : World) : World :=
  withClient (goredis.mkClient (theDb w) fs (sent w)) w.

(** The handle of [cache1], the entries used below and the worlds they
    are stored in. *)
Definition c1 : redisCache := handle cfg1 world0.
Definition int1 : option value := Some (VInt 342348347).
Definition sample1 : option value := Some (VSample "Jeeva" true).
Definition entryNil : entry value := mkEntry (seconds 3) None.
Definition storedNil : goredis.Stored :=
  goredis.mkStored (fst (encode basicTypes entryNil)) (seconds 3).
(** [key1] holds [int1], written in sliding mode. *)
Definition worldSlide : World :=
  snd (Put c1 "key1" int1 (seconds 3) (snd (Create cfgSlide world0))).
(** [key1] holds an entry whose value is nil. *)
Definition worldNil : World :=
  snd (Put c1 "key1" None (seconds 3) world0).

End Demo.

(** The separator occurs in a cache name. *)
Definition has_separator (n : string) : Prop := "-"%char ∈ chars n.

(** No transport fault is scheduled: every coming round trip goes through. *)
Definition quiet (w : World) : Prop := theFaults w = [].

(** The key a command addresses; [FLUSHDB] addresses none. *)
Definition cmdKey (c : goredis.Cmd) : option string :=
  match c with
  | goredis.CmdGet k => Some k
  | goredis.CmdSet k _ _ => Some k
  | goredis.CmdDel k => Some k
  | goredis.CmdExists k => Some k
  | goredis.CmdExpire k _ => Some k
  | goredis.CmdFlushDB => None
  end.

(** ** [Provider.Init], [Provider.Client] and [parseDuration] *)

(** Package [config] (imported): the two readers [Init] calls on the
    application configuration. *)
Module config.

Record Config : Type := mkConfig {
  StringDefault : string -> string -> string;
  IntDefault : string -> Z -> Z
}.

End config.

(** [redis.Options], the fields [Init] fills. *)
Module options.

Record Options : Type := mkOptions {
  Network : string;
  Addr : string;
  Password : string;
  DB : Z;
  PoolSize : Z;
  DialTimeout : Duration;
  ReadTimeout : Duration;
  WriteTimeout : Duration;
  PoolTimeout : Duration;
  IdleTimeout : Duration;
  IdleCheckFrequency : Duration;
  MinRetryBackoff : Duration;
  MaxRetryBackoff : Duration
}.

End options.

(** What [Init] calls outside the package: [strings.ToLower],
    [runtime.NumCPU], [time.ParseDuration] (value and error),
    [redis.NewClient] and the client's [Ping().Result()] (its error and the
    client afterwards). *)
Class Runtime : Type := mkRuntime {
  ToLower : string -> string;
  NumCPU : Z;
  ParseDuration : string -> Duration * error;
  NewClient : options.Options -> goredis.Client;
  Ping : goredis.Client -> error * goredis.Client
}.

(** The fields of [Provider] that [Init] assigns, with the pointers as
    they are on a provider that was not initialised ([None] is nil), and
    gob's registry. *)
Record Boot : Type := mkBoot {
  bName : string;
  bLogger : list string;
  bAppCfg : option config.Config;
  bClient : option goredis.Client;
  bClientOpts : option options.Options;
  bGobTypes : gset string
}.

(** The name under which [gob.Register(entry{})] records the type. *)
Definition entryTypeName : string := "redis.entry".

Section Initialisation.

Context `{Runtime}.

(** [parseDuration] *)
Definition parseDuration (v f : string) : Duration :=
  let '(d, err) := ParseDuration v in
  match err with
  | None => d
  | Some _ => fst (ParseDuration f)
  end.

(** [Provider.Init] *)
Definition Init (providerName : string) (appCfg : config.Config)
    (logger : list string) (b : Boot) : error * Boot :=
  let b := mkBoot providerName logger (Some appCfg)
                  (bClient b) (bClientOpts b) (bGobTypes b) in
  let cfgPrefix := "cache." +:+ bName b +:+ "." in
  if negb (String.eqb
             (ToLower (config.StringDefault appCfg (cfgPrefix +:+ "provider") ""))
             "redis")
  then (Some "aah/cache: not a vaild provider name, expected 'redis'", b)
  else
    let opts :=
      options.mkOptions
        (config.StringDefault appCfg (cfgPrefix +:+ "network") "tcp")
        (config.StringDefault appCfg (cfgPrefix +:+ "address") ":6379")
        (config.StringDefault appCfg (cfgPrefix +:+ "password") "")
        (config.IntDefault appCfg (cfgPrefix +:+ "db") 0)
        (config.IntDefault appCfg (cfgPrefix +:+ "pool_size") (10 * NumCPU))
        (parseDuration (config.StringDefault appCfg (cfgPrefix +:+ "timeout.connect") "5s") "5s")
        (parseDuration (config.StringDefault appCfg (cfgPrefix +:+ "timeout.read") "3s") "3s")
        (parseDuration (config.StringDefault appCfg (cfgPrefix +:+ "timeout.write") "3s") "3s")
        (parseDuration (config.StringDefault appCfg (cfgPrefix +:+ "timeout.pool") "3s") "3s")
        (parseDuration (config.StringDefault appCfg (cfgPrefix +:+ "timeout.idle") "5m") "5m")
        (parseDuration (config.StringDefault appCfg (cfgPrefix +:+ "idle_check_interval") "1m") "1m")
        (parseDuration (config.StringDefault appCfg (cfgPrefix +:+ "retry_backoff.min") "8ms") "8ms")
        (parseDuration (config.StringDefault appCfg (cfgPrefix +:+ "retry_backoff.max") "512ms") "512ms") in
    let '(err, cl) := Ping (NewClient opts) in
    let b := mkBoot (bName b) (bLogger b) (bAppCfg b)
                    (Some cl) (Some opts) (bGobTypes b) in
    match err with
    | Some msg => (Some ("aah/cache/" +:+ bName b +:+ ": " +:+ msg), b)
    | None =>
        (None,
         mkBoot (bName b)
                (bLogger b ++
                   ["aah/cache/provider: " +:+ bName b +:+
                    " connected successfully with " +:+ options.Addr opts])
                (bAppCfg b) (bClient b) (bClientOpts b)
                ({[entryTypeName]} ∪ bGobTypes b))
    end.

(** [Provider.Client] *)
Definition Client (b : Boot) : option goredis.Client := bClient b.

(** The provider-name test of [Init]. *)
Definition isRedis (providerName : string) (appCfg : config.Config) : bool :=
  String.eqb
    (ToLower (config.StringDefault appCfg
                (("cache." +:+ providerName +:+ ".") +:+ "provider") ""))
    "redis".

(** The options [Init] builds for a provider name and a configuration
    (the [redis.Options] literal of [Init]). *)
Definition optionsOf (providerName : string) (appCfg : config.Config)
  : options.Options :=
  let cfgPrefix := "cache." +:+ providerName +:+ "." in
  options.mkOptions
    (config.StringDefault appCfg (cfgPrefix +:+ "network") "tcp")
    (config.StringDefault appCfg (cfgPrefix +:+ "address") ":6379")
    (config.StringDefault appCfg (cfgPrefix +:+ "password") "")
    (config.IntDefault appCfg (cfgPrefix +:+ "db") 0)
    (config.IntDefault appCfg (cfgPrefix +:+ "pool_size") (10 * NumCPU))
    (parseDuration (config.StringDefault appCfg (cfgPrefix +:+ "timeout.connect") "5s") "5s")
    (parseDuration (config.StringDefault appCfg (cfgPrefix +:+ "timeout.read") "3s") "3s")
    (parseDuration (config.StringDefault appCfg (cfgPrefix +:+ "timeout.write") "3s") "3s")
    (parseDuration (config.StringDefault appCfg (cfgPrefix +:+ "timeout.pool") "3s") "3s")
    (parseDuration (config.StringDefault appCfg (cfgPrefix +:+ "timeout.idle") "5m") "5m")
    (parseDuration (config.StringDefault appCfg (cfgPrefix +:+ "idle_check_interval") "1m") "1m")
    (parseDuration (config.StringDefault appCfg (cfgPrefix +:+ "retry_backoff.min") "8ms") "8ms")
    (parseDuration (config.StringDefault appCfg (cfgPrefix +:+ "retry_backoff.max") "512ms") "512ms").

(** The duration is what [time.ParseDuration] returns, without error, for
    some text. *)
Definition parsed (d : Duration) : Prop :=
  exists s, ParseDuration s = (d, None).

(** The fallback texts [Init] passes to [parseDuration]. *)
Definition defaultDurations : list string :=
  ["5s"; "3s"; "5m"; "1m"; "8ms"; "512ms"].

(** The duration fields of the options. *)
Definition durations (o : options.Options) : list Duration :=
  [options.DialTimeout o; options.ReadTimeout o; options.WriteTimeout o;
   options.PoolTimeout o; options.IdleTimeout o; options.IdleCheckFrequency o;
   options.MinRetryBackoff o; options.MaxRetryBackoff o].

End Initialisation.

(** A runtime and configurations to run [Init] on. *)
Module DemoBoot.

Definition lowerAscii (c : ascii) : ascii :=
  let n := nat_of_ascii c in
  if (andb (Nat.leb 65 n) (Nat.leb n 90)) then ascii_of_nat (n + 32) else c.

Fixpoint toLower (s : string) : string :=
  match s with
  | EmptyString => EmptyString
  | String c s' => String (lowerAscii c) (toLower s')
  end.

(** Durations written as one number and one unit, as far as the defaults
    of [Init] need them. *)
Definition parse (s : string) : Duration * error :=
  if String.eqb s "5s" then (5000000000, None)
  else if String.eqb s "3s" then (3000000000, None)
  else if String.eqb s "5m" then (300000000000, None)
  else if String.eqb s "1m" then (60000000000, None)
  else if String.eqb s "8ms" then (8000000, None)
  else if String.eqb s "512ms" then (512000000, None)
  else (0, Some ("time: invalid duration " +:+ s)).

(** A server that answers, one that cannot be reached. *)
Definition up (o : options.Options) : goredis.Client := goredis.mkClient ∅ [] [].
Definition down (o : options.Options) : goredis.Client :=
  goredis.mkClient ∅ [Some "dial tcp: connection refused"] [].

Definition ping (cl : goredis.Client) : error * goredis.Client :=
  match goredis.faults cl with
  | f :: fs => (f, goredis.mkClient (goredis.db cl) fs (goredis.issued cl))
  | [] => (None, cl)
  end.

Definition rtUp : Runtime := mkRuntime toLower 4 parse up ping.
Definition rtDown : Runtime := mkRuntime toLower 4 parse down ping.

Definition fromMap (m : gmap string string) : config.Config :=
  config.mkConfig
    (fun k d => match m !! k with Some v => v | None => d end)
    (fun k d => d).

Definition appRedis : config.Config :=
  fromMap {[ "cache.redis1.provider" := "Redis";
             "cache.redis1.address" := "localhost:6379";
             "cache.redis1.timeout.read" := "soon" ]}.

Definition appOther : config.Config :=
  fromMap {[ "cache.redis1.provider" := "myredis" ]}.

(** A provider as [new(Provider)] leaves it, gob knowing its basic types. *)
Definition fresh : Boot := mkBoot "" [] None None None {["int"; "string"]}.

End DemoBoot.

(** * Properties *)

(** ** Strings *)

Lemma append_cons (c : ascii) (a b : string) :
  String c a +:+ b = String c (a +:+ b).
Proof. reflexivity. Qed.

Lemma chars_app (a b : string) : chars (a +:+ b) = (chars a ++ chars b)%list.
Proof.
  induction a as [|c a IH]; [reflexivity |].
  rewrite append_cons. simpl. now rewrite IH.
Qed.

Lemma chars_inj (a b : string) : chars a = chars b -> a = b.
Proof.
  intros E. rewrite <- (string_of_list_ascii_of_string a),
    <- (string_of_list_ascii_of_string b).
  unfold chars in E. now rewrite E.
Qed.

Lemma string_app_assoc (a b c : string) : a +:+ (b +:+ c) = (a +:+ b) +:+ c.
Proof.
  induction a as [|x a IH]; [reflexivity |].
  now rewrite !append_cons, IH.
Qed.

Lemma string_app_nil_r (a : string) : a +:+ "" = a.
Proof.
  induction a as [|x a IH]; [reflexivity |].
  now rewrite append_cons, IH.
Qed.

Lemma string_app_inv_tail (a b k : string) : a +:+ k = b +:+ k -> a = b.
Proof.
  intros E. apply chars_inj. apply (f_equal chars) in E.
  rewrite !chars_app in E. now apply app_inv_tail in E.
Qed.

Lemma string_drop_app (p k : string) : string_drop (String.length p) (p +:+ k) = k.
Proof.
  induction p as [|c p IH]; [now destruct k |].
  rewrite append_cons. exact IH.
Qed.

Lemma string_app_eq_app (a b k1 k2 : string) :
  a +:+ k1 = b +:+ k2 -> is_prefix a b \/ is_prefix b a.
Proof.
  intros E. apply (f_equal chars) in E. rewrite !chars_app in E.
  apply app_eq_app in E as [l [[Ea _] | [Eb _]]].
  - right. exists (string_of_list_ascii l). apply chars_inj.
    rewrite chars_app. unfold chars at 3.
    now rewrite list_ascii_of_string_of_list_ascii.
  - left. exists (string_of_list_ascii l). apply chars_inj.
    rewrite chars_app. unfold chars at 3.
    now rewrite list_ascii_of_string_of_list_ascii.
Qed.

(** ** The client model *)

Module goredis_facts.

Import goredis.

Lemma roundTrip_issued c cl : issued (snd (roundTrip c cl)) = (issued cl ++ [c])%list.
Proof. unfold roundTrip. now destruct (faults cl). Qed.

Lemma roundTrip_db c cl : db (snd (roundTrip c cl)) = db cl.
Proof. unfold roundTrip. now destruct (faults cl). Qed.

Lemma roundTrip_fault c cl :
  fst (roundTrip c cl) = match faults cl with f :: _ => f | [] => None end.
Proof. unfold roundTrip. now destruct (faults cl). Qed.

Ltac run_cmd cl :=
  match goal with
  | |- context [roundTrip ?c cl] =>
      pose proof (roundTrip_issued c cl) as Hissued;
      pose proof (roundTrip_db c cl) as Hdb;
      pose proof (roundTrip_fault c cl) as Hfault;
      destruct (roundTrip c cl) as [f cl'];
      simpl in Hissued, Hdb, Hfault
  end.

Lemma Get_issued k cl : issued (snd (Get k cl)) = (issued cl ++ [CmdGet k])%list.
Proof.
  unfold Get. run_cmd cl. destruct f; [assumption |].
  now destruct (db _ !! k).
Qed.

Lemma Get_db k cl : db (snd (Get k cl)) = db cl.
Proof.
  unfold Get. run_cmd cl. destruct f; [assumption |].
  now destruct (db _ !! k).
Qed.

(** The reply to a read, by cases on the scheduled fault and the key. *)
Lemma Get_reply k cl :
  fst (Get k cl) =
  match faults cl with
  | Some e :: _ => ([], Some e)
  | _ => match db cl !! k with
         | Some s => (payload s, None)
         | None => ([], Some Nil)
         end
  end.
Proof.
  unfold Get, roundTrip.
  destruct (faults cl) as [|[e|] fs]; simpl; try reflexivity;
    now destruct (db cl !! k).
Qed.

Lemma Set_issued k v d cl :
  issued (snd (Set_ k v d cl)) = (issued cl ++ [CmdSet k v d])%list.
Proof. unfold Set_. run_cmd cl. now destruct f. Qed.

Lemma Set_db k v d cl :
  db (snd (Set_ k v d cl)) =
  match fst (Set_ k v d cl) with
  | Some _ => db cl
  | None => <[k := mkStored v d]> (db cl)
  end.
Proof. unfold Set_. run_cmd cl. destruct f; simpl; congruence. Qed.

Lemma Set_error k v d cl :
  fst (Set_ k v d cl) = match faults cl with f :: _ => f | [] => None end.
Proof. unfold Set_. run_cmd cl. now destruct f. Qed.

Lemma Del_issued k cl : issued (snd (Del k cl)) = (issued cl ++ [CmdDel k])%list.
Proof. unfold Del. run_cmd cl. now destruct f. Qed.

Lemma Del_error k cl :
  fst (Del k cl) = match faults cl with f :: _ => f | [] => None end.
Proof. unfold Del. run_cmd cl. now destruct f. Qed.

Lemma Del_db k cl :
  fst (Del k cl) = None -> db (snd (Del k cl)) = delete k (db cl).
Proof. unfold Del. run_cmd cl. destruct f; simpl; congruence. Qed.

Lemma Expire_issued k d cl :
  issued (snd (Expire k d cl)) = (issued cl ++ [CmdExpire k d])%list.
Proof. unfold Expire. run_cmd cl. now destruct f. Qed.

Lemma Expire_error k d cl :
  fst (Expire k d cl) = match faults cl with f :: _ => f | [] => None end.
Proof. unfold Expire. run_cmd cl. now destruct f. Qed.

Lemma Exists_reply k cl :
  fst (Exists k cl) =
  match faults cl with
  | Some e :: _ => (0, Some e)
  | _ => (match db cl !! k with Some _ => 1 | None => 0 end, None)
  end.
Proof.
  unfold Exists, roundTrip.
  destruct (faults cl) as [|[e|] fs]; reflexivity.
Qed.

End goredis_facts.

(** ** Evaluation of the operations *)

Ltac go_unfold :=
  unfold bind, ret, gets, onClient, Errorf, Name, releaseBuffer;
  unfold withClient, withLogger, withPool; simpl.

Section AdapterFacts.

Context {Data : Type} `{Gob Data}.

(** [Get] returns nil whenever the read reports an error. *)
Lemma Get_read_error r k w msg :
  snd (readReply r k w) = Some msg -> fst (Get r k w) = None.
Proof.
  unfold readReply, physKey, Get. go_unfold.
  destruct (goredis.Get _ _) as [[bs err] cl]. simpl. intros ->.
  destruct (notacacheMiss (Some msg)); reflexivity.
Qed.

(** [Get] returns nil whenever the payload does not decode. *)
Lemma Get_decode_error r k w msg :
  snd (readReply r k w) = None ->
  gobDecode (gobTypes w) (fst (readReply r k w)) = Err msg ->
  fst (Get r k w) = None.
Proof.
  unfold readReply, physKey, Get. go_unfold.
  destruct (goredis.Get _ _) as [[bs err] cl]. simpl. intros -> E.
  simpl. rewrite E. reflexivity.
Qed.

(** On a payload that decodes, [Get] returns the entry's value. *)
Lemma Get_decoded r k w e :
  snd (readReply r k w) = None ->
  gobDecode (gobTypes w) (fst (readReply r k w)) = OK e ->
  fst (Get r k w) = V e.
Proof.
  unfold readReply, physKey, Get. go_unfold.
  destruct (goredis.Get _ _) as [[bs err] cl]. simpl. intros -> E.
  simpl. rewrite E. simpl.
  destruct (decide _); [|reflexivity].
  destruct (goredis.Expire _ _ _) as [[msg|] cl']; reflexivity.
Qed.

Lemma acquireBuffer_provider w : provider (snd (acquireBuffer w)) = provider w.
Proof. unfold acquireBuffer. now destruct (bufPool w). Qed.

Lemma acquireBuffer_gobTypes w : gobTypes (snd (acquireBuffer w)) = gobTypes w.
Proof. unfold acquireBuffer. now destruct (bufPool w). Qed.

Lemma acquireBuffer_clean w :
  pool_clean w ->
  fst (acquireBuffer w) = [] /\ pool_clean (snd (acquireBuffer w)).
Proof.
  unfold pool_clean, acquireBuffer. intros Hc.
  destruct (bufPool w) as [|b rest] eqn:E; simpl.
  - split; [reflexivity | now rewrite E].
  - inversion Hc; subst. now split.
Qed.

(** [Put] when the encoder fails: the wrapped error, and a world that
    differs from the one after [acquireBuffer] in nothing. *)
Lemma Put_encode_error r k v d w out msg :
  gobEncode (gobTypes w) (mkEntry d v) = (out, Some msg) ->
  Put r k v d w =
  (Some (fmtErr (cache.Name (cfg (provider w))) msg), snd (acquireBuffer w)).
Proof.
  intros E. unfold Put, bind.
  pose proof (acquireBuffer_provider w) as Hp.
  pose proof (acquireBuffer_gobTypes w) as Hg.
  destruct (acquireBuffer w) as [buf w1]. simpl in *.
  unfold gets. rewrite Hg, E. unfold Name, ret. now rewrite Hp.
Qed.

(** [Put] when the encoder succeeds: one [SET] of the buffer's contents,
    the buffer goes back to the pool reset, and the command's error is
    the result. *)
Lemma Put_encoded r k v d w out :
  gobEncode (gobTypes w) (mkEntry d v) = (out, None) ->
  Put r k v d w =
  let w1 := snd (acquireBuffer w) in
  let res := goredis.Set_ (physKey r k) (fst (acquireBuffer w) ++ out)%list d
                          (client (provider w)) in
  (fst res, withPool ([] :: bufPool w1) (withClient (snd res) w1)).
Proof.
  intros E. unfold Put, bind, physKey.
  pose proof (acquireBuffer_provider w) as Hp.
  pose proof (acquireBuffer_gobTypes w) as Hg.
  destruct (acquireBuffer w) as [buf w1]. simpl in *.
  unfold gets. rewrite Hg, E. unfold onClient. rewrite Hp.
  destruct (goredis.Set_ _ _ _ _) as [err cl]. reflexivity.
Qed.

(** A read that fails with anything but the sentinel is logged, a miss
    is not. *)
Lemma Get_read_error_logged r k w msg :
  snd (readReply r k w) = Some msg ->
  logged (snd (Get r k w)) =
  if String.eqb msg goredis.Nil then logged w
  else (logged w ++ [fmtKeyErr (cache.Name (cfg (provider w))) k msg])%list.
Proof.
  unfold readReply, physKey, Get, logged. go_unfold.
  destruct (goredis.Get _ _) as [[bs err] cl]. simpl. intros ->.
  unfold notacacheMiss, goredis.Nil.
  destruct (String.eqb msg "redis: nil"); simpl; [reflexivity |].
  now rewrite string_drop_app.
Qed.

(** The commands [Get] sends: the read, and in sliding mode, after a
    successful decode, the refresh. *)
Lemma Get_sent r k w :
  sent (snd (Get r k w)) =
  (sent w ++ goredis.CmdGet (physKey r k) ::
     match snd (readReply r k w), gobDecode (gobTypes w) (fst (readReply r k w)) with
     | None, OK e =>
         if decide (cache.EvictionMode (cfg (provider w)) = cache.EvictionModeSlide)
         then [goredis.CmdExpire (physKey r k) (D e)]
         else []
     | _, _ => []
     end)%list.
Proof.
  unfold readReply, physKey, Get, sent. go_unfold.
  pose proof (goredis_facts.Get_issued (keyPrefix r +:+ k) (client (provider w))) as Hi.
  destruct (goredis.Get _ _) as [[bs err] cl]. simpl in *.
  destruct err as [msg|]; simpl.
  - unfold notacacheMiss. destruct (String.eqb msg _); simpl; exact Hi.
  - destruct (gobDecode (gobTypes w) bs) as [e|msg]; simpl; [|exact Hi].
    destruct (decide _); simpl; [|exact Hi].
    pose proof (goredis_facts.Expire_issued (keyPrefix r +:+ k) (D e) cl) as He.
    destruct (goredis.Expire _ _ _) as [[msg|] cl']; simpl in *;
      rewrite He, Hi, <- app_assoc; reflexivity.
Qed.

(** C2. [Get] has no error result, and every failure on its way degrades
    to nil: a key that is not in the store, any error reply to the read
    (the "no such key" sentinel or another failure), and a payload that
    does not decode.  A non-nil result only comes from a read that
    succeeded and a payload that decoded, and is that entry's value. *)
Theorem Get_never_surfaces_an_error (r : redisCache) (k : string) (w : World) :
  (nextFault w = None -> theDb w !! physKey r k = None ->
     snd (readReply r k w) = Some goredis.Nil /\ fst (Get r k w) = None)
  /\ (forall msg, snd (readReply r k w) = Some msg -> fst (Get r k w) = None)
  /\ (forall msg, snd (readReply r k w) = None ->
        gobDecode (gobTypes w) (fst (readReply r k w)) = Err msg ->
        fst (Get r k w) = None)
  /\ (forall x, fst (Get r k w) = Some x ->
        snd (readReply r k w) = None /\
        exists e, gobDecode (gobTypes w) (fst (readReply r k w)) = OK e /\
                  V e = Some x).
Proof.
  split; [|split; [|split]].
  - intros Hf Hk.
    assert (snd (readReply r k w) = Some goredis.Nil) as Hr.
    { unfold readReply. rewrite goredis_facts.Get_reply.
      unfold nextFault, theFaults, theDb in *.
      destruct (goredis.faults _) as [|[e|] fs]; try discriminate;
        now rewrite Hk. }
    split; [exact Hr | exact (Get_read_error _ _ _ _ Hr)].
  - apply Get_read_error.
  - apply Get_decode_error.
  - intros x Hx.
    destruct (snd (readReply r k w)) as [msg|] eqn:Hr.
    { rewrite (Get_read_error _ _ _ _ Hr) in Hx. discriminate. }
    split; [reflexivity |].
    destruct (gobDecode (gobTypes w) (fst (readReply r k w))) as [e|msg] eqn:Hd.
    + exists e. split; [reflexivity |].
      now rewrite <- (Get_decoded _ _ _ _ Hr Hd).
    + rewrite (Get_decode_error _ _ _ _ Hr Hd) in Hx. discriminate.
Qed.

(** C6. When the read succeeds and the payload decodes to [e], [Get]
    returns [e]'s value and, in sliding mode, sends exactly the read
    followed by [EXPIRE] on the prefixed key with the decoded [e.D]; a
    failed refresh is logged and the result is still [e]'s value.  When
    the mode is not sliding, [Get] sends the read and nothing else,
    whatever the reply. *)
Theorem Get_refreshes_ttl_in_sliding_mode
    (r : redisCache) (k : string) (w : World) (e : entry Data) :
  snd (readReply r k w) = None ->
  gobDecode (gobTypes w) (fst (readReply r k w)) = OK e ->
  fst (Get r k w) = V e
  /\ (cache.EvictionMode (cfg (provider w)) = cache.EvictionModeSlide ->
        sent (snd (Get r k w)) =
        (sent w ++ [goredis.CmdGet (physKey r k);
                    goredis.CmdExpire (physKey r k) (D e)])%list
        /\ forall msg, nextFault (afterRead r k w) = Some msg ->
             fst (Get r k w) = V e /\
             logged (snd (Get r k w)) =
             (logged w ++ [fmtKeyErr (cache.Name (cfg (provider w))) k msg])%list)
  /\ (forall (k' : string) (w' : World),
        cache.EvictionMode (cfg (provider w')) <> cache.EvictionModeSlide ->
        sent (snd (Get r k' w')) = (sent w' ++ [goredis.CmdGet (physKey r k')])%list).
Proof.
  intros Hr Hd. split; [exact (Get_decoded _ _ _ _ Hr Hd) |]. split.
  - intros Hm. split.
    + rewrite Get_sent, Hr, Hd. now destruct (decide _).
    + intros msg Hf. split; [exact (Get_decoded _ _ _ _ Hr Hd) |].
      revert Hr Hd Hf.
      unfold readReply, afterRead, nextFault, theFaults, physKey, Get, logged.
      go_unfold.
      destruct (goredis.Get _ _) as [[bs err] cl]. simpl. intros -> Hd Hf.
      simpl. rewrite Hd. simpl.
      destruct (decide _) as [_|Hn]; [|contradiction].
      pose proof (goredis_facts.Expire_error (keyPrefix r +:+ k) (D e) cl) as He.
      rewrite Hf in He.
      destruct (goredis.Expire _ _ _) as [err cl']. simpl in He. subst err.
      simpl. now rewrite string_drop_app.
  - intros k' w' Hm. rewrite Get_sent.
    destruct (snd (readReply r k' w')); [reflexivity |].
    destruct (gobDecode (gobTypes w') _); [|reflexivity].
    now destruct (decide _).
Qed.

Lemma Get_bufPool r k w : bufPool (snd (Get r k w)) = bufPool w.
Proof.
  unfold Get. go_unfold.
  destruct (goredis.Get _ _) as [[bs [msg|]] cl]; simpl.
  - unfold notacacheMiss. now destruct (String.eqb msg _).
  - destruct (gobDecode (gobTypes w) bs) as [e|msg]; simpl; [|reflexivity].
    destruct (decide _); simpl; [|reflexivity].
    now destruct (goredis.Expire _ _ _) as [[msg|] cl'].
Qed.

Lemma Get_gobTypes r k w : gobTypes (snd (Get r k w)) = gobTypes w.
Proof.
  unfold Get. go_unfold.
  destruct (goredis.Get _ _) as [[bs [msg|]] cl]; simpl.
  - unfold notacacheMiss. now destruct (String.eqb msg _).
  - destruct (gobDecode (gobTypes w) bs) as [e|msg]; simpl; [|reflexivity].
    destruct (decide _); simpl; [|reflexivity].
    now destruct (goredis.Expire _ _ _) as [[msg|] cl'].
Qed.

(** What [Put] leaves in the pool: on the encoder's error the acquired
    buffer is not put back; otherwise it is put back empty. *)
Lemma Put_bufPool r k v d w :
  bufPool (snd (Put r k v d w)) =
  match snd (gobEncode (gobTypes w) (mkEntry d v)) with
  | Some _ => bufPool (snd (acquireBuffer w))
  | None => [] :: bufPool (snd (acquireBuffer w))
  end.
Proof.
  destruct (gobEncode (gobTypes w) (mkEntry d v)) as [out [msg|]] eqn:E.
  - now rewrite (Put_encode_error _ _ _ _ _ _ _ E).
  - now rewrite (Put_encoded _ _ _ _ _ _ E).
Qed.

Lemma Put_clean r k v d w : pool_clean w -> pool_clean (snd (Put r k v d w)).
Proof.
  intros Hc. destruct (acquireBuffer_clean w Hc) as [_ Hc'].
  unfold pool_clean in *. rewrite Put_bufPool.
  destruct (snd (gobEncode _ _)); [assumption | now constructor].
Qed.

Lemma step_clean (o : Op) w : pool_clean w -> pool_clean (step o w).
Proof.
  intros Hc. destruct o; simpl; try exact Hc.
  - unfold pool_clean. now rewrite Get_bufPool.
  - now apply Put_clean.
  - unfold GetOrPut, bind.
    pose proof (Get_bufPool r k w) as Hg.
    destruct (Get r k w) as [[x|] w1]; simpl in *.
    + unfold ret, pool_clean. simpl. now rewrite Hg.
    + assert (pool_clean w1) as Hc1 by (unfold pool_clean; now rewrite Hg).
      pose proof (Put_clean r k v d w1 Hc1) as Hp.
      now destruct (Put r k v d w1) as [[e|] w2].
  - unfold Delete. go_unfold.
    destruct (goredis.Del _ _) as [[msg|] cl]; simpl; [|exact Hc].
    unfold notacacheMiss. now destruct (String.eqb msg _).
  - unfold Exists. go_unfold.
    now destruct (goredis.Exists _ _) as [[res [msg|]] cl].
  - unfold Flush. go_unfold.
    now destruct (goredis.FlushDB _) as [[msg|] cl].
Qed.

Lemma run_clean (ops : list Op) w : pool_clean w -> pool_clean (run ops w).
Proof.
  revert w. induction ops as [|o ops IH]; intros w Hc; [exact Hc |].
  simpl. apply IH. now apply step_clean.
Qed.

(** C8. Pool discipline.  [releaseBuffer] only ever pushes an empty
    buffer.  On the exit path of [Put] where the encoder failed the
    acquired buffer is dropped (the pool is what [acquireBuffer] left);
    on the other exit path it is pushed back empty.  Hence, starting from
    a pool of empty buffers, after any sequence of calls the pool holds
    empty buffers only and the next buffer acquired is empty. *)
Theorem buffer_pool_discipline :
  (forall (b : Buffer) (w : World),
      bufPool (snd (releaseBuffer (Some b) w)) = [] :: bufPool w)
  /\ (forall r k v d (w : World),
        bufPool (snd (Put r k v d w)) =
        match snd (gobEncode (gobTypes w) (mkEntry d v)) with
        | Some _ => bufPool (snd (acquireBuffer w))
        | None => [] :: bufPool (snd (acquireBuffer w))
        end)
  /\ (forall (ops : list Op) (w : World),
        pool_clean w ->
        pool_clean (run ops w) /\ fst (acquireBuffer (run ops w)) = []).
Proof.
  split; [reflexivity |]. split; [apply Put_bufPool |].
  intros ops w Hc. pose proof (run_clean ops w Hc) as Hr.
  split; [exact Hr | exact (proj1 (acquireBuffer_clean _ Hr))].
Qed.

Lemma acquireBuffer_sent w : sent (snd (acquireBuffer w)) = sent w.
Proof. unfold sent. now rewrite acquireBuffer_provider. Qed.

(** C3. Given gob's refusal of unregistered types, [Put] of a value
    whose concrete type is not registered returns the encoder's error,
    wrapped with the cache name, and sends nothing to the store (trace
    and database are untouched).  When the encoder succeeds and the write
    fails, [Put] sends that one [SET] and returns the write's error. *)
Theorem Put_surfaces_encode_and_write_errors
    (r : redisCache) (k : string) (x : Data) (d : Duration) (w : World) :
  gob_refuses_unregistered Data ->
  typeOf x ∉ gobTypes w ->
  (exists msg,
      snd (gobEncode (gobTypes w) (mkEntry d (Some x))) = Some msg /\
      fst (Put r k (Some x) d w) =
      Some (fmtErr (cache.Name (cfg (provider w))) msg))
  /\ sent (snd (Put r k (Some x) d w)) = sent w
  /\ theDb (snd (Put r k (Some x) d w)) = theDb w
  /\ (forall k' v' d' out msg,
        gobEncode (gobTypes w) (mkEntry d' v') = (out, None) ->
        nextFault w = Some msg ->
        fst (Put r k' v' d' w) = Some msg /\
        sent (snd (Put r k' v' d' w)) =
        (sent w ++ [goredis.CmdSet (physKey r k')
                      (fst (acquireBuffer w) ++ out) d'])%list /\
        theDb (snd (Put r k' v' d' w)) = theDb w).
Proof.
  intros Hgob Hx.
  destruct (Hgob (gobTypes w) d x Hx) as [msg Hmsg].
  destruct (gobEncode (gobTypes w) (mkEntry d (Some x))) as [out err] eqn:E.
  simpl in Hmsg. subst err.
  rewrite (Put_encode_error _ _ _ _ _ _ _ E).
  split; [exists msg; now split |].
  split; [apply acquireBuffer_sent |].
  split; [unfold theDb; simpl; now rewrite acquireBuffer_provider |].
  intros k' v' d' out' msg' E' Hf.
  rewrite (Put_encoded _ _ _ _ _ _ E'). simpl.
  unfold sent, theDb. simpl.
  rewrite goredis_facts.Set_issued, goredis_facts.Set_db, goredis_facts.Set_error.
  unfold nextFault, theFaults in Hf.
  destruct (goredis.faults _) as [|f fs]; [discriminate |]. subst f.
  repeat split.
Qed.

(** C1. Round trip.  From a world whose pooled buffers are empty, for a
    value whose type is registered and an entry that gob round-trips, a
    [Put] that succeeds followed by a [Get] of the same key whose read is
    not hit by a transport fault returns the value that was put. *)
Theorem Put_then_Get_round_trip
    (r : redisCache) (k : string) (v : option Data) (d : Duration) (w : World) :
  pool_clean w ->
  registered (gobTypes w) v ->
  gob_round_trip_at (gobTypes w) (mkEntry d v) ->
  fst (Put r k v d w) = None ->
  nextFault (snd (Put r k v d w)) = None ->
  fst (Get r k (snd (Put r k v d w))) = v.
Proof.
  intros Hc Hreg Hrt Hput Hnf.
  destruct (gobEncode (gobTypes w) (mkEntry d v)) as [out [msg|]] eqn:E.
  { rewrite (Put_encode_error _ _ _ _ _ _ _ E) in Hput. discriminate. }
  specialize (Hrt Hreg out E).
  destruct (acquireBuffer_clean w Hc) as [Hb _].
  rewrite (Put_encoded _ _ _ _ _ _ E) in Hput, Hnf |- *.
  rewrite Hb in Hput, Hnf |- *. simpl in Hput, Hnf |- *.
  set (res := goredis.Set_ (physKey r k) out d (client (provider w))) in *.
  set (w2 := withPool _ _) in *.
  assert (readReply r k w2 = (out, None)) as Hread.
  { unfold readReply. rewrite goredis_facts.Get_reply.
    unfold nextFault, theFaults in Hnf. subst w2. simpl in *.
    destruct (goredis.faults (snd res)) as [|[e|] fs]; try discriminate;
      unfold res; rewrite goredis_facts.Set_db; fold res; rewrite Hput;
      now rewrite lookup_insert_eq. }
  assert (gobTypes w2 = gobTypes w) as Hg.
  { subst w2. simpl. apply acquireBuffer_gobTypes. }
  apply (Get_decoded r k w2 (mkEntry d v)).
  - now rewrite Hread.
  - now rewrite Hread, Hg.
Qed.

(** [GetOrPut] is [Get], then [Put] when [Get] returned nil. *)
Lemma GetOrPut_eq r k v d w :
  GetOrPut r k v d w =
  match fst (Get r k w) with
  | Some x => ((Some x, None), snd (Get r k w))
  | None =>
      let p := Put r k v d (snd (Get r k w)) in
      (match fst p with
       | None => (v, None)
       | Some e => (None, Some e)
       end, snd p)
  end.
Proof.
  unfold GetOrPut, bind.
  destruct (Get r k w) as [[x|] w1]; simpl; [reflexivity |].
  now destruct (Put r k v d w1) as [[e|] w2].
Qed.

(** C4. [GetOrPut] runs [Get] first.  When [Get] yields nil it runs
    [Put] on the world [Get] left: a successful [Put] gives the supplied
    value and no error, a failed one gives nil and [Put]'s error.  When
    [Get] yields a value, that value is returned with no error, the world
    is the one [Get] left, and no [SET] has been added to the trace.  An
    error reply to the read never reaches the caller: the error returned
    is [Put]'s. *)
Theorem GetOrPut_gets_then_puts
    (r : redisCache) (k : string) (v : option Data) (d : Duration) (w : World) :
  let g := Get r k w in
  let p := Put r k v d (snd g) in
  (fst g = None -> fst p = None ->
     GetOrPut r k v d w = ((v, None), snd p))
  /\ (forall e, fst g = None -> fst p = Some e ->
        GetOrPut r k v d w = ((None, Some e), snd p))
  /\ (forall x, fst g = Some x ->
        GetOrPut r k v d w = ((Some x, None), snd g) /\
        forall pk bs d',
          goredis.CmdSet pk bs d' ∈ sent (snd (GetOrPut r k v d w)) ->
          goredis.CmdSet pk bs d' ∈ sent w)
  /\ (forall msg, snd (readReply r k w) = Some msg ->
        snd (fst (GetOrPut r k v d w)) = fst p).
Proof.
  intros g p. subst g p. rewrite GetOrPut_eq.
  split; [|split; [|split]].
  - intros -> Hp. simpl. now rewrite Hp.
  - intros e -> Hp. simpl. now rewrite Hp.
  - intros x Hx. rewrite Hx. split; [reflexivity |].
    simpl. rewrite Get_sent. intros pk bs d'.
    rewrite elem_of_app, elem_of_cons.
    intros [Hin | [Hin | Hin]]; [exact Hin | discriminate |].
    destruct (snd (readReply r k w)); [now apply elem_of_nil in Hin |].
    destruct (gobDecode _ _); [|now apply elem_of_nil in Hin].
    destruct (decide _); [|now apply elem_of_nil in Hin].
    apply list_elem_of_singleton in Hin. discriminate.
  - intros msg Hr. rewrite (Get_read_error _ _ _ _ Hr). simpl.
    now destruct (fst (Put r k v d (snd (Get r k w)))).
Qed.

(** The earlier revision of [GetOrPut] ([redis.go]) has no error result:
    it returns the supplied value whatever its [Put] returned. *)
Lemma Legacy_GetOrPut_discards_the_Put_error r k (v : option Data) d w :
  fst (Legacy.GetOrPut r k v d w) =
  match fst (Legacy.Get r k w) with
  | Some x => Some x
  | None => v
  end.
Proof.
  unfold Legacy.GetOrPut, bind.
  destruct (Legacy.Get r k w) as [[x|] w1]; simpl; [reflexivity |].
  now destruct (Legacy.Put r k v d w1).
Qed.

Lemma Delete_sent r k w :
  sent (snd (Delete r k w)) = (sent w ++ [goredis.CmdDel (physKey r k)])%list.
Proof.
  unfold sent, physKey, Delete. go_unfold.
  pose proof (goredis_facts.Del_issued (keyPrefix r +:+ k) (client (provider w))) as Hi.
  destruct (goredis.Del _ _) as [[msg|] cl]; simpl in *; [|exact Hi].
  unfold notacacheMiss. now destruct (String.eqb msg _).
Qed.

(** C7. [Delete] sends one [DEL] of the prefixed key.  When the round
    trip goes through it returns no error, whether or not the key was
    there (deleting an absent key leaves the database as it was), so a
    second [Delete] succeeds as well.  An error reply equal to the "key
    not found" sentinel is success too.  Any other error reply is
    returned, formatted with the cache name and the key, and these are
    the only errors [Delete] returns. *)
Theorem Delete_is_idempotent (r : redisCache) (k : string) (w : World) :
  sent (snd (Delete r k w)) = (sent w ++ [goredis.CmdDel (physKey r k)])%list
  /\ (nextFault w = None ->
        fst (Delete r k w) = None /\
        theDb (snd (Delete r k w)) = delete (physKey r k) (theDb w))
  /\ (nextFault w = None -> theDb w !! physKey r k = None ->
        fst (Delete r k w) = None /\ theDb (snd (Delete r k w)) = theDb w)
  /\ (nextFault w = None -> nextFault (snd (Delete r k w)) = None ->
        fst (Delete r k (snd (Delete r k w))) = None)
  /\ (nextFault w = Some goredis.Nil -> fst (Delete r k w) = None)
  /\ (forall msg, nextFault w = Some msg -> msg <> goredis.Nil ->
        fst (Delete r k w) =
        Some (fmtKeyErr (cache.Name (cfg (provider w))) k msg))
  /\ (forall e, fst (Delete r k w) = Some e ->
        exists msg, nextFault w = Some msg /\ msg <> goredis.Nil /\
                    e = fmtKeyErr (cache.Name (cfg (provider w))) k msg).
Proof.
  assert (forall w0,
    nextFault w0 = None ->
    fst (Delete r k w0) = None /\
    theDb (snd (Delete r k w0)) = delete (physKey r k) (theDb w0)) as Hok.
  { intros w0. unfold nextFault, theFaults, theDb, physKey, Delete. go_unfold.
    pose proof (goredis_facts.Del_error (keyPrefix r +:+ k) (client (provider w0))) as He.
    pose proof (goredis_facts.Del_db (keyPrefix r +:+ k) (client (provider w0))) as Hd.
    destruct (goredis.Del _ _) as [err cl]. simpl in *. intros Hf.
    rewrite Hf in He. subst err. simpl. split; [reflexivity | now apply Hd]. }
  assert (forall msg,
    nextFault w = Some msg ->
    fst (Delete r k w) =
    if String.eqb msg goredis.Nil then None
    else Some (fmtKeyErr (cache.Name (cfg (provider w))) k msg)) as Herr.
  { intros msg. unfold nextFault, theFaults, physKey, Delete. go_unfold.
    pose proof (goredis_facts.Del_error (keyPrefix r +:+ k) (client (provider w))) as He.
    destruct (goredis.Del _ _) as [err cl]. simpl in *. intros Hf.
    rewrite Hf in He. subst err. unfold notacacheMiss, goredis.Nil.
    now destruct (String.eqb msg _). }
  split; [|split; [|split; [|split; [|split; [|split]]]]].
  - apply Delete_sent.
  - apply Hok.
  - intros Hf Hk. destruct (Hok w Hf) as [H1 H2].
    split; [exact H1 |]. rewrite H2. now apply delete_id.
  - intros _ Hf. exact (proj1 (Hok _ Hf)).
  - intros Hf. rewrite (Herr _ Hf). now rewrite String.eqb_refl.
  - intros msg Hf Hne. rewrite (Herr _ Hf).
    apply String.eqb_neq in Hne. now rewrite Hne.
  - intros e He. destruct (nextFault w) as [msg|] eqn:Hf.
    + rewrite (Herr _ eq_refl) in He.
      destruct (String.eqb msg goredis.Nil) eqn:Hm; [discriminate |].
      exists msg. apply String.eqb_neq in Hm.
      injection He as <-. now repeat split.
    + rewrite (proj1 (Hok w Hf)) in He. discriminate.
Qed.

Lemma Put_sent_encoded r k v d w out :
  gobEncode (gobTypes w) (mkEntry d v) = (out, None) ->
  sent (snd (Put r k v d w)) =
  (sent w ++ [goredis.CmdSet (physKey r k) (fst (acquireBuffer w) ++ out) d])%list.
Proof.
  intros E. rewrite (Put_encoded _ _ _ _ _ _ E). unfold sent. simpl.
  apply goredis_facts.Set_issued.
Qed.

(** C9. The provider's [cfg] is one cell shared by all its handles, and
    [Create] overwrites it.  After a handle was created from [cA] and a
    second [Create] ran with [cB], the first handle's [Name] is [cB]'s
    name and its [Get] refreshes the time to live according to [cB]'s
    eviction mode, while its key prefix is still [cA]'s name followed by
    the separator: [Get], [Put] and [Delete] address the same physical
    keys as before. *)
Theorem Create_overwrites_the_shared_cfg (cA cB : cache.Config) (w0 : World) :
  let rA := handle cA w0 in
  let w1 := snd (Create cA w0) in
  let w2 := snd (Create cB w1) in
  fst (Name rA w1) = cache.Name cA
  /\ fst (Name rA w2) = cache.Name cB
  /\ keyPrefix rA = cache.Name cA +:+ "-"
  /\ (forall k e,
        snd (readReply rA k w2) = None ->
        gobDecode (gobTypes w2) (fst (readReply rA k w2)) = OK e ->
        sent (snd (Get rA k w2)) =
        (sent w2 ++ goredis.CmdGet ((cache.Name cA +:+ "-") +:+ k) ::
           if decide (cache.EvictionMode cB = cache.EvictionModeSlide)
           then [goredis.CmdExpire ((cache.Name cA +:+ "-") +:+ k) (D e)]
           else [])%list)
  /\ (forall k v d out,
        gobEncode (gobTypes w2) (mkEntry d v) = (out, None) ->
        sent (snd (Put rA k v d w2)) =
        (sent w2 ++ [goredis.CmdSet ((cache.Name cA +:+ "-") +:+ k)
                       (fst (acquireBuffer w2) ++ out) d])%list)
  /\ (forall k,
        sent (snd (Delete rA k w2)) =
        (sent w2 ++ [goredis.CmdDel ((cache.Name cA +:+ "-") +:+ k)])%list).
Proof.
  intros rA w1 w2.
  split; [reflexivity |]. split; [reflexivity |]. split; [reflexivity |].
  split; [|split].
  - intros k e Hr Hd. rewrite Get_sent, Hr, Hd. reflexivity.
  - intros k v d out E. now rewrite (Put_sent_encoded _ _ _ _ _ _ E).
  - intros k. apply Delete_sent.
Qed.

(** The reply to a read that no fault hits is decided by the database. *)
Lemma readReply_reachable r k w :
  nextFault w = None ->
  readReply r k w =
  match theDb w !! physKey r k with
  | Some s => (goredis.payload s, None)
  | None => ([], Some goredis.Nil)
  end.
Proof.
  unfold nextFault, theFaults, theDb, readReply. intros Hf.
  rewrite goredis_facts.Get_reply.
  destruct (goredis.faults _) as [|[e|] fs]; try discriminate; reflexivity.
Qed.

Lemma Exists_reachable r k w :
  nextFault w = None ->
  fst (Exists r k w) =
  match theDb w !! physKey r k with Some _ => true | None => false end.
Proof.
  unfold nextFault, theFaults, theDb, physKey, Exists. go_unfold. intros Hf.
  pose proof (goredis_facts.Exists_reply (keyPrefix r +:+ k) (client (provider w))) as He.
  destruct (goredis.Exists _ _) as [[res err] cl]. simpl in *.
  destruct (goredis.faults _) as [|[e|] fs]; try discriminate;
    injection He as -> ->; simpl;
    now destruct (goredis.db _ !! _).
Qed.

(** C10. A stored entry whose decoded value is nil cannot be told from
    an absent key through [Get]: [Get] returns nil for both, although
    [Exists] answers true for the stored entry and false for the absent
    key.  [GetOrPut] on the stored-nil key therefore takes the put
    branch: its result is [Put]'s, and when that [Put] succeeds the
    supplied value is returned and the key now holds the new entry. *)
Theorem stored_nil_is_taken_for_absent
    (r : redisCache) (k : string) (w : World) (s : goredis.Stored) (e : entry Data) :
  nextFault w = None ->
  theDb w !! physKey r k = Some s ->
  gobDecode (gobTypes w) (goredis.payload s) = OK e ->
  V e = None ->
  fst (Get r k w) = None
  /\ fst (Exists r k w) = true
  /\ (forall w', nextFault w' = None -> theDb w' !! physKey r k = None ->
        fst (Get r k w') = None /\ fst (Exists r k w') = false)
  /\ (forall v d,
        GetOrPut r k v d w =
        let p := Put r k v d (snd (Get r k w)) in
        (match fst p with
         | None => (v, None)
         | Some err => (None, Some err)
         end, snd p))
  /\ (forall v d out,
        pool_clean w ->
        gobEncode (gobTypes w) (mkEntry d v) = (out, None) ->
        fst (Put r k v d (snd (Get r k w))) = None ->
        fst (GetOrPut r k v d w) = (v, None) /\
        theDb (snd (GetOrPut r k v d w)) !! physKey r k =
        Some (goredis.mkStored out d)).
Proof.
  intros Hf Hk Hd Hv.
  pose proof (readReply_reachable r k w Hf) as Hr. rewrite Hk in Hr.
  assert (fst (Get r k w) = None) as Hget.
  { rewrite <- Hv. apply Get_decoded; now rewrite Hr. }
  split; [exact Hget |].
  split; [now rewrite (Exists_reachable _ _ _ Hf), Hk |].
  split; [|split].
  - intros w' Hf' Hk'. split.
    + apply (Get_read_error r k w' goredis.Nil).
      now rewrite (readReply_reachable _ _ _ Hf'), Hk'.
    + now rewrite (Exists_reachable _ _ _ Hf'), Hk'.
  - intros v d. now rewrite GetOrPut_eq, Hget.
  - intros v d out Hc E Hp.
    rewrite GetOrPut_eq, Hget. simpl. rewrite Hp. split; [reflexivity |].
    set (w1 := snd (Get r k w)) in *.
    assert (gobTypes w1 = gobTypes w) as Hg by apply Get_gobTypes.
    assert (pool_clean w1) as Hc1.
    { unfold pool_clean, w1. now rewrite Get_bufPool. }
    rewrite <- Hg in E.
    rewrite (Put_encoded _ _ _ _ _ _ E) in Hp |- *.
    rewrite (proj1 (acquireBuffer_clean w1 Hc1)) in Hp |- *.
    simpl in Hp |- *. unfold theDb. simpl.
    rewrite goredis_facts.Set_db, Hp. now rewrite lookup_insert_eq.
Qed.

End AdapterFacts.

(** ** Namespaces *)

(** Two handles never address the same physical key for the same logical
    key unless their prefixes are equal. *)
Lemma physKey_same_key (rA rB : redisCache) (k : string) :
  keyPrefix rA <> keyPrefix rB -> physKey rA k <> physKey rB k.
Proof.
  unfold physKey. intros Hne E. apply Hne. exact (string_app_inv_tail _ _ _ E).
Qed.

(** The prefixes of caches with different names are different. *)
Lemma keyPrefix_inj (cA cB : cache.Config) (wA wB : World) :
  cache.Name cA <> cache.Name cB ->
  keyPrefix (handle cA wA) <> keyPrefix (handle cB wB).
Proof.
  unfold handle. simpl. intros Hne E. apply Hne.
  exact (string_app_inv_tail _ _ _ E).
Qed.

(** Some pair of logical keys collides exactly when one prefix is a prefix
    of the other. *)
Lemma physKey_collision (rA rB : redisCache) :
  (exists k1 k2, physKey rA k1 = physKey rB k2) <->
  is_prefix (keyPrefix rA) (keyPrefix rB) \/ is_prefix (keyPrefix rB) (keyPrefix rA).
Proof.
  unfold physKey. split.
  - intros (k1 & k2 & E). exact (string_app_eq_app _ _ _ _ E).
  - intros [[s Hs] | [s Hs]].
    + exists s, "". now rewrite Hs, string_app_nil_r.
    + exists "", s. now rewrite Hs, string_app_nil_r.
Qed.

(** Names that do not contain the separator give prefixes none of which
    is a prefix of another. *)
Lemma keyPrefix_not_prefix (nA nB : string) :
  nA <> nB -> ~ has_separator nA -> ~ has_separator nB ->
  ~ is_prefix (nA +:+ "-") (nB +:+ "-").
Proof.
  unfold has_separator. intros Hne HA HB [s Hs].
  apply (f_equal chars) in Hs. rewrite !chars_app in Hs.
  change (chars "-") with ["-"%char] in Hs. rewrite <- app_assoc in Hs.
  apply app_eq_app in Hs as [l [[E1 E2] | [E1 E2]]].
  - destruct l as [|x l].
    + rewrite app_nil_r in E1. apply Hne. symmetry. now apply chars_inj.
    + simpl in E2. injection E2 as <- _. apply HB. rewrite E1.
      apply elem_of_app. right. apply elem_of_cons. now left.
  - destruct l as [|x l].
    + rewrite app_nil_r in E1. apply Hne. now apply chars_inj.
    + simpl in E2. injection E2 as <- _. apply HA. rewrite E1.
      apply elem_of_app. right. apply elem_of_cons. now left.
Qed.

(** Caches whose names differ and are free of the separator share no
    physical key at all. *)
Lemma names_without_separator_never_collide (cA cB : cache.Config) (wA wB : World) :
  cache.Name cA <> cache.Name cB ->
  ~ has_separator (cache.Name cA) -> ~ has_separator (cache.Name cB) ->
  forall k1 k2, physKey (handle cA wA) k1 <> physKey (handle cB wB) k2.
Proof.
  intros Hne HA HB k1 k2 E.
  destruct (proj1 (physKey_collision (handle cA wA) (handle cB wB)))
    as [Hp | Hp]; [now exists k1, k2 | |].
  - exact (keyPrefix_not_prefix _ _ Hne HA HB Hp).
  - exact (keyPrefix_not_prefix _ _ (not_eq_sym Hne) HB HA Hp).
Qed.

Section Namespaces.

Context {Data : Type} `{Gob Data}.

(** [Put] leaves every physical key but its own as it was. *)
Lemma Put_db_other r k v d w pk :
  pk <> physKey r k -> theDb (snd (Put r k v d w)) !! pk = theDb w !! pk.
Proof.
  intros Hne.
  destruct (gobEncode (gobTypes w) (mkEntry d v)) as [out [msg|]] eqn:E.
  - rewrite (Put_encode_error _ _ _ _ _ _ _ E). unfold theDb. simpl.
    now rewrite acquireBuffer_provider.
  - rewrite (Put_encoded _ _ _ _ _ _ E). unfold theDb. simpl.
    rewrite goredis_facts.Set_db.
    destruct (fst (goredis.Set_ _ _ _ _)); [reflexivity |].
    now rewrite lookup_insert_ne.
Qed.

(** C5 (amended). For caches created with different names and one and
    the same logical key, the two physical keys differ: a [Put] through
    one handle leaves the other handle's key as it was, and a [Get]
    through the other handle returns nil if its own key was not in the
    store.  Over all pairs of logical keys, no physical key is shared
    exactly when neither key prefix is a prefix of the other. *)
Theorem caches_with_different_names_are_isolated_per_key
    (cA cB : cache.Config) (wA wB : World) :
  cache.Name cA <> cache.Name cB ->
  (forall k, physKey (handle cA wA) k <> physKey (handle cB wB) k)
  /\ (forall k v d w,
        theDb (snd (Put (handle cA wA) k v d w)) !! physKey (handle cB wB) k =
        theDb w !! physKey (handle cB wB) k)
  /\ (forall k v d w,
        nextFault (snd (Put (handle cA wA) k v d w)) = None ->
        theDb w !! physKey (handle cB wB) k = None ->
        fst (Get (handle cB wB) k (snd (Put (handle cA wA) k v d w))) = None)
  /\ ((forall k1 k2, physKey (handle cA wA) k1 <> physKey (handle cB wB) k2) <->
      ~ is_prefix (keyPrefix (handle cA wA)) (keyPrefix (handle cB wB)) /\
      ~ is_prefix (keyPrefix (handle cB wB)) (keyPrefix (handle cA wA))).
Proof.
  intros Hne.
  pose proof (keyPrefix_inj cA cB wA wB Hne) as Hp.
  assert (forall k, physKey (handle cA wA) k <> physKey (handle cB wB) k) as Hk.
  { intros k. now apply physKey_same_key. }
  split; [exact Hk |]. split; [|split].
  - intros k v d w. apply Put_db_other. intros E. exact (Hk k (eq_sym E)).
  - intros k v d w Hf Habs.
    apply (Get_read_error _ _ _ goredis.Nil).
    rewrite (readReply_reachable _ _ _ Hf).
    rewrite Put_db_other; [now rewrite Habs |].
    intros E. exact (Hk k (eq_sym E)).
  - split.
    + intros Hall. split; intros Hpre;
        (destruct (proj2 (physKey_collision (handle cA wA) (handle cB wB)))
          as (k1 & k2 & E); [tauto | exact (Hall k1 k2 E)]).
    + intros [H1 H2] k1 k2 E.
      destruct (proj1 (physKey_collision (handle cA wA) (handle cB wB)));
        [now exists k1, k2 | tauto | tauto].
Qed.

End Namespaces.

(** ** The operations on the concrete instance *)

Module DemoFacts.

Import Demo.

Lemma gob_refuses : gob_refuses_unregistered value.
Proof.
  intros reg d x Hx. simpl. unfold encode. simpl.
  destruct (decide (typeName x ∈ reg)) as [Hin|_]; [contradiction |].
  eexists. reflexivity.
Qed.

(** C5 as stated fails: caches named [a] and [a-b] are different caches,
    yet key [b-c] of the first and key [c] of the second are the same
    physical key, and a [Get] through the second returns what was put
    through the first. *)
Lemma namespace_collision :
  cache.Name cfgA <> cache.Name cfgB
  /\ physKey (handle cfgA world0) "b-c" = physKey (handle cfgB world0) "c"
  /\ fst (Put (handle cfgA world0) "b-c" (Some (VInt 7)) (seconds 3) world0) = None
  /\ fst (Get (handle cfgB world0) "c"
            (snd (Put (handle cfgA world0) "b-c" (Some (VInt 7)) (seconds 3) world0)))
     = Some (VInt 7)
  /\ ~ (forall (nameA nameB k1 k2 : string),
          nameA <> nameB ->
          physKey (handle (cache.mkConfig nameA "redis1" 0%N) world0) k1 <>
          physKey (handle (cache.mkConfig nameB "redis1" 0%N) world0) k2).
Proof.
  split; [discriminate |]. split; [reflexivity |].
  split; [vm_compute; reflexivity |]. split; [vm_compute; reflexivity |].
  intros Hall. apply (Hall "a" "a-b" "b-c" "c"); [discriminate | reflexivity].
Qed.

Ltac evaluate := vm_compute; reflexivity.

Lemma Put_then_Get_round_trip_witness :
  pool_clean world0
  /\ registered (gobTypes world0) int1
  /\ fst (Put c1 "key1" int1 (seconds 3) world0) = None
  /\ fst (Get c1 "key1" (snd (Put c1 "key1" int1 (seconds 3) world0))) = int1.
Proof.
  assert (pool_clean world0) as Hc by (unfold pool_clean; simpl; constructor).
  assert (registered (gobTypes world0) int1) as Hreg
    by (unfold registered, int1; apply (bool_decide_unpack _); vm_compute; exact I).
  assert (fst (Put c1 "key1" int1 (seconds 3) world0) = None) as Hput by evaluate.
  split; [exact Hc |]. split; [exact Hreg |]. split; [exact Hput |].
  apply (Put_then_Get_round_trip c1 "key1" int1 (seconds 3) world0 Hc Hreg);
    [| exact Hput | evaluate].
  intros _ out E. vm_compute in E. injection E as <-. evaluate.
Defined.

Lemma Get_never_surfaces_an_error_witness :
  fst (Get c1 "key1" world0) = None
  /\ fst (Get c1 "key1" (withFaults [Some "i/o timeout"] worldSlide)) = None.
Proof.
  split.
  - apply (proj1 (Get_never_surfaces_an_error c1 "key1" world0)); evaluate.
  - apply (proj1 (proj2 (Get_never_surfaces_an_error c1 "key1"
             (withFaults [Some "i/o timeout"] worldSlide))) "i/o timeout").
    evaluate.
Defined.

Lemma Put_surfaces_encode_and_write_errors_witness :
  (typeOf (VSample "Jeeva" true) ∉ gobTypes world0)
  /\ sent (snd (Put c1 "pre-test-key1" sample1 (seconds 3) world0)) = sent world0
  /\ fst (Put c1 "key1" int1 (seconds 3) (withFaults [Some "i/o timeout"] world0))
     = Some "i/o timeout".
Proof.
  assert (typeOf (VSample "Jeeva" true) ∉ gobTypes world0) as Hx
    by (apply (bool_decide_unpack _); vm_compute; exact I).
  split; [exact Hx |]. split.
  - exact (proj1 (proj2 (Put_surfaces_encode_and_write_errors c1 "pre-test-key1"
             (VSample "Jeeva" true) (seconds 3) world0 gob_refuses Hx))).
  - assert (typeOf (VSample "Jeeva" true) ∉
            gobTypes (withFaults [Some "i/o timeout"] world0)) as Hx' by exact Hx.
    refine (proj1 (proj2 (proj2 (proj2
      (Put_surfaces_encode_and_write_errors c1 "pre-test-key1"
         (VSample "Jeeva" true) (seconds 3)
         (withFaults [Some "i/o timeout"] world0) gob_refuses Hx')))
      "key1" int1 (seconds 3) _ "i/o timeout" _ _)); evaluate.
Defined.

Lemma GetOrPut_gets_then_puts_witness :
  GetOrPut c1 "key1" int1 (seconds 3) world0 =
  ((int1, None), snd (Put c1 "key1" int1 (seconds 3) (snd (Get c1 "key1" world0)))).
Proof.
  apply (proj1 (GetOrPut_gets_then_puts c1 "key1" int1 (seconds 3) world0)); evaluate.
Defined.

Lemma caches_with_different_names_are_isolated_per_key_witness :
  cache.Name cfg1 <> cache.Name cfgSlide
  /\ physKey (handle cfg1 world0) "key1" <> physKey (handle cfgSlide world0) "key1".
Proof.
  assert (cache.Name cfg1 <> cache.Name cfgSlide) as Hne by discriminate.
  split; [exact Hne |].
  exact (proj1 (caches_with_different_names_are_isolated_per_key
                  (Data := value) cfg1 cfgSlide world0 world0 Hne) "key1").
Defined.

Lemma Get_refreshes_ttl_in_sliding_mode_witness :
  snd (readReply c1 "key1" worldSlide) = None
  /\ gobDecode (gobTypes worldSlide) (fst (readReply c1 "key1" worldSlide))
     = OK (mkEntry (seconds 3) int1)
  /\ fst (Get c1 "key1" worldSlide) = int1
  /\ sent (snd (Get c1 "key1" worldSlide)) =
     (sent worldSlide ++ [goredis.CmdGet "cache1-key1";
                          goredis.CmdExpire "cache1-key1" (seconds 3)])%list.
Proof.
  assert (snd (readReply c1 "key1" worldSlide) = None) as Hr by evaluate.
  assert (gobDecode (gobTypes worldSlide) (fst (readReply c1 "key1" worldSlide))
          = OK (mkEntry (seconds 3) int1)) as Hd by evaluate.
  split; [exact Hr |]. split; [exact Hd |].
  pose proof (Get_refreshes_ttl_in_sliding_mode c1 "key1" worldSlide _ Hr Hd)
    as [Hv [Hs _]].
  split; [exact Hv |]. apply Hs. evaluate.
Defined.

Lemma Delete_is_idempotent_witness :
  fst (Delete c1 "key1" world0) = None
  /\ fst (Delete c1 "key1" (withFaults [Some "redis: nil"] world0)) = None
  /\ fst (Delete c1 "key1" (withFaults [Some "i/o timeout"] world0)) =
     Some "aah/cache/cache1: key(key1) i/o timeout".
Proof.
  split; [|split].
  - apply (proj1 (proj2 (proj2 (Delete_is_idempotent c1 "key1" world0)))); evaluate.
  - apply (proj1 (proj2 (proj2 (proj2 (proj2
      (Delete_is_idempotent c1 "key1" (withFaults [Some "redis: nil"] world0)))))));
      evaluate.
  - apply (proj1 (proj2 (proj2 (proj2 (proj2 (proj2
      (Delete_is_idempotent c1 "key1" (withFaults [Some "i/o timeout"] world0))))))));
      [evaluate | discriminate].
Defined.

Lemma buffer_pool_discipline_witness :
  pool_clean world0
  /\ fst (acquireBuffer
            (run [OpPut c1 "pre-test-key1" sample1 (seconds 3);
                  OpPut c1 "key1" int1 (seconds 3);
                  OpGetOrPut c1 "key2" int1 (seconds 3)] world0)) = [].
Proof.
  assert (pool_clean world0) as Hc by (unfold pool_clean; simpl; constructor).
  split; [exact Hc |].
  exact (proj2 (proj2 (proj2 (buffer_pool_discipline (Data := value))) _ world0 Hc)).
Defined.

Lemma Create_overwrites_the_shared_cfg_witness :
  fst (Name (handle cfg1 world0) (snd (Create cfgSlide (snd (Create cfg1 world0)))))
  = "addgetcache"
  /\ keyPrefix (handle cfg1 world0) = "cache1-".
Proof.
  pose proof (Create_overwrites_the_shared_cfg (Data := value) cfg1 cfgSlide world0)
    as (_ & Hn & Hp & _).
  split; [exact Hn | exact Hp].
Defined.

Lemma stored_nil_is_taken_for_absent_witness :
  nextFault worldNil = None
  /\ theDb worldNil !! physKey c1 "key1" = Some storedNil
  /\ gobDecode (gobTypes worldNil) (goredis.payload storedNil) = OK entryNil
  /\ fst (Get c1 "key1" worldNil) = None
  /\ fst (Exists c1 "key1" worldNil) = true
  /\ fst (GetOrPut c1 "key1" int1 (seconds 3) worldNil) = (int1, None).
Proof.
  assert (nextFault worldNil = None) as Hf by evaluate.
  assert (theDb worldNil !! physKey c1 "key1" = Some storedNil) as Hk by evaluate.
  assert (gobDecode (gobTypes worldNil) (goredis.payload storedNil) = OK entryNil)
    as Hd by evaluate.
  pose proof (stored_nil_is_taken_for_absent c1 "key1" worldNil storedNil entryNil
                Hf Hk Hd eq_refl) as (Hg & He & _ & _ & Hp).
  repeat (split; [assumption |]).
  assert (pool_clean worldNil) as Hc
    by (unfold pool_clean; vm_compute; repeat constructor).
  refine (proj1 (Hp int1 (seconds 3)
                    (fst (gobEncode (gobTypes worldNil) (mkEntry (seconds 3) int1)))
                    Hc _ _)); evaluate.
Defined.

End DemoFacts.


(** * Further properties of the operations *)

(** ** [Exists], [Put], [Delete] and [Flush] against the store *)

Ltac open_world w :=
  let n := fresh "n" in
  let lg := fresh "lg" in
  let c := fresh "c" in
  let db := fresh "db" in
  let fs := fresh "fs" in
  let iss := fresh "iss" in
  let reg := fresh "reg" in
  let pool := fresh "pool" in
  destruct w as [[n lg c [db fs iss]] reg pool];
  unfold sent, theDb, theFaults, logged, nextFault, physKey in *; simpl in *.

Section StoreFacts.

Context {Data : Type} `{Gob Data}.

(** X1. [Exists] sends one [EXISTS] of the prefixed key and changes
    neither the database nor the pool.  When the round trip goes through it
    answers whether the key is in the store and logs nothing; on any error
    reply, the "redis: nil" sentinel included, it answers false and logs
    one line with the cache name and the logical key. *)
Theorem Exists_answers_from_the_store (r : redisCache) (k : string) (w : World) :
  sent (snd (Exists r k w)) = (sent w ++ [goredis.CmdExists (physKey r k)])%list
  /\ theDb (snd (Exists r k w)) = theDb w
  /\ bufPool (snd (Exists r k w)) = bufPool w
  /\ (nextFault w = None ->
        fst (Exists r k w) =
        match theDb w !! physKey r k with Some _ => true | None => false end /\
        logged (snd (Exists r k w)) = logged w)
  /\ (forall msg, nextFault w = Some msg ->
        fst (Exists r k w) = false /\
        logged (snd (Exists r k w)) =
        (logged w ++ [fmtKeyErr (cache.Name (cfg (provider w))) k msg])%list).
Proof.
  open_world w. unfold Exists, goredis.Exists, goredis.roundTrip. go_unfold.
  destruct fs as [|[e|] fs]; simpl; repeat split; intros; try discriminate;
    try reflexivity; try (now destruct (db !! _)).
  congruence.
Qed.

(** A read of a key that is not in the store, when the round trip goes
    through, is a miss: nil, and nothing logged. *)
Lemma Get_miss r k w :
  nextFault w = None -> theDb w !! physKey r k = None ->
  fst (Get r k w) = None /\ logged (snd (Get r k w)) = logged w.
Proof.
  intros Hf Hk.
  assert (snd (readReply r k w) = Some goredis.Nil) as Hr
    by now rewrite (readReply_reachable _ _ _ Hf), Hk.
  split; [exact (Get_read_error _ _ _ _ Hr) |].
  now rewrite (Get_read_error_logged _ _ _ _ Hr).
Qed.

(** A [Put] that returned no error had an encoder that succeeded and a
    write that went through. *)
Lemma Put_success_inv r k v d w :
  fst (Put r k v d w) = None ->
  exists out,
    gobEncode (gobTypes w) (mkEntry d v) = (out, None) /\
    nextFault w = None /\
    theDb (snd (Put r k v d w)) =
    <[physKey r k := goredis.mkStored (fst (acquireBuffer w) ++ out) d]> (theDb w).
Proof.
  intros Hp.
  destruct (gobEncode (gobTypes w) (mkEntry d v)) as [out [msg|]] eqn:E.
  { rewrite (Put_encode_error _ _ _ _ _ _ _ E) in Hp. discriminate. }
  exists out. split; [reflexivity |].
  rewrite (Put_encoded _ _ _ _ _ _ E) in Hp |- *. simpl in Hp |- *.
  unfold theDb, nextFault, theFaults. simpl.
  rewrite goredis_facts.Set_db, Hp.
  rewrite goredis_facts.Set_error in Hp. now split.
Qed.

(** X2. When the encoder succeeds and the write goes through, [Put]
    returns no error and the database is the old one with, under the
    prefixed key, the acquired buffer's contents followed by the encoder's
    bytes, with the time to live that was passed; no other key changes.
    From a pool of empty buffers the payload is the encoder's bytes alone. *)
Theorem Put_stores_the_encoded_entry
    (r : redisCache) (k : string) (v : option Data) (d : Duration) (w : World)
    (out : list byte) :
  gobEncode (gobTypes w) (mkEntry d v) = (out, None) ->
  nextFault w = None ->
  fst (Put r k v d w) = None
  /\ theDb (snd (Put r k v d w)) =
     <[physKey r k := goredis.mkStored (fst (acquireBuffer w) ++ out) d]> (theDb w)
  /\ (forall pk, pk <> physKey r k ->
        theDb (snd (Put r k v d w)) !! pk = theDb w !! pk)
  /\ (pool_clean w ->
        theDb (snd (Put r k v d w)) !! physKey r k = Some (goredis.mkStored out d)).
Proof.
  intros E Hf.
  assert (fst (Put r k v d w) = None) as Hp.
  { rewrite (Put_encoded _ _ _ _ _ _ E). simpl.
    rewrite goredis_facts.Set_error. exact Hf. }
  destruct (Put_success_inv _ _ _ _ _ Hp) as (out' & E' & _ & Hdb).
  rewrite E in E'. injection E' as <-.
  split; [exact Hp |]. split; [exact Hdb |]. split.
  - intros pk Hne. rewrite Hdb. now rewrite lookup_insert_ne.
  - intros Hc. rewrite Hdb, lookup_insert_eq.
    now rewrite (proj1 (acquireBuffer_clean w Hc)).
Qed.

(** X3. After a [Put] that returned no error, [Exists] of the same key
    answers true whenever its own round trip goes through. *)
Theorem Put_then_Exists
    (r : redisCache) (k : string) (v : option Data) (d : Duration) (w : World) :
  fst (Put r k v d w) = None ->
  nextFault (snd (Put r k v d w)) = None ->
  fst (Exists r k (snd (Put r k v d w))) = true.
Proof.
  intros Hp Hf.
  destruct (Put_success_inv _ _ _ _ _ Hp) as (out & _ & _ & Hdb).
  rewrite (Exists_reachable _ _ _ Hf), Hdb. now rewrite lookup_insert_eq.
Qed.

Lemma Delete_ok r k w :
  nextFault w = None ->
  fst (Delete r k w) = None /\
  theDb (snd (Delete r k w)) = delete (physKey r k) (theDb w).
Proof.
  intros Hf. open_world w. unfold Delete, goredis.Del, goredis.roundTrip.
  go_unfold. destruct fs as [|[e|] fs]; try discriminate; now split.
Qed.

(** X4. After a [Delete] whose round trip went through, the key is gone
    whatever it held: [Get] of it returns nil without logging and [Exists]
    answers false, and every other physical key is as before. *)
Theorem Delete_then_miss (r : redisCache) (k : string) (w : World) :
  nextFault w = None ->
  nextFault (snd (Delete r k w)) = None ->
  fst (Get r k (snd (Delete r k w))) = None
  /\ logged (snd (Get r k (snd (Delete r k w)))) = logged (snd (Delete r k w))
  /\ fst (Exists r k (snd (Delete r k w))) = false
  /\ (forall pk, pk <> physKey r k ->
        theDb (snd (Delete r k w)) !! pk = theDb w !! pk).
Proof.
  intros Hf Hf'. destruct (Delete_ok r k w Hf) as [_ Hdb].
  assert (theDb (snd (Delete r k w)) !! physKey r k = None) as Hk
    by (rewrite Hdb; apply lookup_delete_eq).
  destruct (Get_miss r k _ Hf' Hk) as [Hg Hl].
  split; [exact Hg |]. split; [exact Hl |]. split.
  - now rewrite (Exists_reachable _ _ _ Hf'), Hk.
  - intros pk Hne. rewrite Hdb. now rewrite lookup_delete_ne.
Qed.

Lemma Flush_ok r w :
  nextFault w = None ->
  fst (Flush r w) = None /\ theDb (snd (Flush r w)) = ∅.
Proof.
  intros Hf. open_world w. unfold Flush, goredis.FlushDB, goredis.roundTrip.
  go_unfold. destruct fs as [|[e|] fs]; try discriminate; now split.
Qed.

(** X5. A [Flush] whose round trip went through empties the database for
    every handle, not only its own: afterwards, through any handle and for
    any key, [Get] returns nil and [Exists] answers false. *)
Theorem Flush_empties_every_namespace (r : redisCache) (w : World) :
  nextFault w = None ->
  fst (Flush r w) = None
  /\ theDb (snd (Flush r w)) = ∅
  /\ sent (snd (Flush r w)) = (sent w ++ [goredis.CmdFlushDB])%list
  /\ (forall (r' : redisCache) (k' : string),
        nextFault (snd (Flush r w)) = None ->
        fst (Get r' k' (snd (Flush r w))) = None /\
        fst (Exists r' k' (snd (Flush r w))) = false).
Proof.
  intros Hf. destruct (Flush_ok r w Hf) as [Hr Hdb].
  split; [exact Hr |]. split; [exact Hdb |]. split.
  - clear Hr Hdb. open_world w.
    unfold Flush, goredis.FlushDB, goredis.roundTrip. go_unfold.
    now destruct fs as [|[e|] fs].
  - intros r' k' Hf'.
    assert (theDb (snd (Flush r w)) !! physKey r' k' = None) as Hk
      by (rewrite Hdb; apply lookup_empty).
    split; [exact (proj1 (Get_miss r' k' _ Hf' Hk)) |].
    now rewrite (Exists_reachable _ _ _ Hf'), Hk.
Qed.

(** X6. [Flush] returns every error reply to its caller, formatted with
    the cache name, and then leaves the database as it was.  The "redis:
    nil" sentinel gets no special treatment here: the same reply that
    [Delete] turns into success is an error of [Flush]. *)
Theorem Flush_returns_every_error (r : redisCache) (w : World) (msg : string) :
  nextFault w = Some msg ->
  fst (Flush r w) = Some (fmtErr (cache.Name (cfg (provider w))) msg)
  /\ theDb (snd (Flush r w)) = theDb w
  /\ (forall k, msg = goredis.Nil -> fst (Delete r k w) = None).
Proof.
  intros Hf. open_world w.
  unfold Flush, Delete, goredis.FlushDB, goredis.Del, goredis.roundTrip.
  go_unfold. destruct fs as [|[e|] fs]; try discriminate.
  injection Hf as ->. simpl. repeat split. now intros k ->.
Qed.

(** ** What [Get] leaves behind *)

Lemma Expire_db_cases k d cl :
  goredis.db (snd (goredis.Expire k d cl)) = goredis.db cl \/
  goredis.db (snd (goredis.Expire k d cl)) =
  alter (fun s => goredis.mkStored (goredis.payload s) d) k (goredis.db cl).
Proof.
  destruct cl as [db fs iss]. unfold goredis.Expire, goredis.roundTrip. simpl.
  destruct fs as [|[e|] fs]; simpl; auto.
Qed.

Lemma Get_faults_tail k cl :
  goredis.faults (snd (goredis.Get k cl)) = tail (goredis.faults cl).
Proof.
  destruct cl as [db fs iss]. unfold goredis.Get, goredis.roundTrip. simpl.
  destruct fs as [|[e|] fs]; simpl; try reflexivity; now destruct (db !! k).
Qed.

Lemma Expire_faults_tail k d cl :
  goredis.faults (snd (goredis.Expire k d cl)) = tail (goredis.faults cl).
Proof.
  destruct cl as [db fs iss]. unfold goredis.Expire, goredis.roundTrip. simpl.
  now destruct fs as [|[e|] fs].
Qed.


(** The database after [Get]: unchanged, or with the time to live of the
    key read replaced. *)
Lemma Get_db_cases r k w :
  theDb (snd (Get r k w)) = theDb w \/
  exists d, theDb (snd (Get r k w)) =
            alter (fun s => goredis.mkStored (goredis.payload s) d)
                  (physKey r k) (theDb w).
Proof.
  unfold Get, theDb, physKey. go_unfold.
  pose proof (goredis_facts.Get_db (keyPrefix r +:+ k) (client (provider w))) as Hd.
  destruct (goredis.Get _ _) as [[bs [msg|]] cl]; simpl in *.
  - unfold notacacheMiss. destruct (String.eqb msg _); simpl; left; exact Hd.
  - destruct (gobDecode (gobTypes w) bs) as [e|msg]; simpl; [|left; exact Hd].
    destruct (decide _); simpl; [|left; exact Hd].
    pose proof (Expire_db_cases (keyPrefix r +:+ k) (D e) cl) as He.
    destruct (goredis.Expire _ _ _) as [[msg|] cl']; simpl in *;
      (destruct He as [-> | ->]; rewrite Hd; [now left | right; now exists (D e)]).
Qed.


Lemma Get_quiet r k w : quiet w -> quiet (snd (Get r k w)).
Proof.
  unfold quiet, Get, theFaults, physKey. intros Hq. go_unfold.
  pose proof (Get_faults_tail (keyPrefix r +:+ k) (client (provider w))) as Hd.
  rewrite Hq in Hd.
  destruct (goredis.Get _ _) as [[bs [msg|]] cl]; simpl in *.
  - unfold notacacheMiss. destruct (String.eqb msg _); simpl; exact Hd.
  - destruct (gobDecode (gobTypes w) bs) as [e|msg]; simpl; [|exact Hd].
    destruct (decide _); simpl; [|exact Hd].
    pose proof (Expire_faults_tail (keyPrefix r +:+ k) (D e) cl) as He.
    rewrite Hd in He.
    destruct (goredis.Expire _ _ _) as [[msg|] cl']; simpl in *; exact He.
Qed.

Lemma Get_cfg_same r k w : cfg (provider (snd (Get r k w))) = cfg (provider w).
Proof.
  unfold Get. go_unfold.
  destruct (goredis.Get _ _) as [[bs [msg|]] cl]; simpl.
  - unfold notacacheMiss. now destruct (String.eqb msg _).
  - destruct (gobDecode (gobTypes w) bs) as [e|msg]; simpl; [|reflexivity].
    destruct (decide _); simpl; [|reflexivity].
    now destruct (goredis.Expire _ _ _) as [[msg|] cl'].
Qed.

Lemma Get_payloads r k w pk :
  goredis.payload <$> (theDb (snd (Get r k w)) !! pk) =
  goredis.payload <$> (theDb w !! pk).
Proof.
  destruct (Get_db_cases r k w) as [-> | [d ->]]; [reflexivity |].
  rewrite lookup_alter. destruct (decide (physKey r k = pk)) as [->|]; [|reflexivity].
  now destruct (theDb w !! pk).
Qed.


(** X8. What [Get] logs.  A miss (the "redis: nil" reply) logs nothing.
    Any other error reply to the read logs one line that names the cache
    and the logical key, without the prefix.  A payload that does not
    decode logs one line with the decoder's error.  A read that succeeds
    outside sliding mode logs nothing. *)
Theorem Get_logs_failures_but_not_misses (r : redisCache) (k : string) (w : World) :
  (snd (readReply r k w) = Some goredis.Nil -> logged (snd (Get r k w)) = logged w)
  /\ (forall msg, snd (readReply r k w) = Some msg -> msg <> goredis.Nil ->
        logged (snd (Get r k w)) =
        (logged w ++ [fmtKeyErr (cache.Name (cfg (provider w))) k msg])%list)
  /\ (forall msg, snd (readReply r k w) = None ->
        gobDecode (gobTypes w) (fst (readReply r k w)) = Err msg ->
        logged (snd (Get r k w)) =
        (logged w ++ [fmtErr (cache.Name (cfg (provider w))) msg])%list)
  /\ (forall e, snd (readReply r k w) = None ->
        gobDecode (gobTypes w) (fst (readReply r k w)) = OK e ->
        cache.EvictionMode (cfg (provider w)) <> cache.EvictionModeSlide ->
        logged (snd (Get r k w)) = logged w).
Proof.
  split; [|split; [|split]].
  - intros Hr. now rewrite (Get_read_error_logged _ _ _ _ Hr).
  - intros msg Hr Hne. rewrite (Get_read_error_logged _ _ _ _ Hr).
    apply String.eqb_neq in Hne. now rewrite Hne.
  - intros msg. unfold readReply, physKey, Get, logged. go_unfold.
    destruct (goredis.Get _ _) as [[bs err] cl]. simpl. intros -> Hd.
    simpl. now rewrite Hd.
  - intros e. unfold readReply, physKey, Get, logged. go_unfold.
    destruct (goredis.Get _ _) as [[bs err] cl]. simpl. intros -> Hd Hm.
    simpl. rewrite Hd. simpl. now destruct (decide _).
Qed.

(** ** Composition of [Get] and [Put] *)

Lemma quiet_nextFault w : quiet w -> nextFault w = None.
Proof. unfold quiet, nextFault. now intros ->. Qed.



(** The commands [Put] sends: none when the encoder fails, else one [SET]. *)
Lemma Put_sent r k v d w :
  sent (snd (Put r k v d w)) =
  (sent w ++
     match gobEncode (gobTypes w) (mkEntry d v) with
     | (_, Some _) => []
     | (out, None) =>
         [goredis.CmdSet (physKey r k) (fst (acquireBuffer w) ++ out) d]
     end)%list.
Proof.
  destruct (gobEncode (gobTypes w) (mkEntry d v)) as [out [msg|]] eqn:E.
  - rewrite (Put_encode_error _ _ _ _ _ _ _ E). simpl.
    now rewrite acquireBuffer_sent, app_nil_r.
  - exact (Put_sent_encoded _ _ _ _ _ _ E).
Qed.



(** ** Commands and buffers *)

(** X10. Every command that [Get], [Put], [GetOrPut], [Delete] and
    [Exists] send for a logical key addresses that handle's physical key
    for it and no other key.  [Get] sends at most two commands, [Put] at
    most one, [GetOrPut] at most three, [Delete] and [Exists] exactly
    one. *)
Theorem operations_address_their_own_key
    (r : redisCache) (k : string) (v : option Data) (d : Duration) (w : World) :
  let own (l : list goredis.Cmd) :=
    Forall (fun c => cmdKey c = Some (physKey r k)) l in
  (exists l, sent (snd (Get r k w)) = (sent w ++ l)%list /\
             (length l <= 2)%nat /\ own l)
  /\ (exists l, sent (snd (Put r k v d w)) = (sent w ++ l)%list /\
                (length l <= 1)%nat /\ own l)
  /\ (exists l, sent (snd (GetOrPut r k v d w)) = (sent w ++ l)%list /\
                (length l <= 3)%nat /\ own l)
  /\ (exists l, sent (snd (Delete r k w)) = (sent w ++ l)%list /\
                length l = 1%nat /\ own l)
  /\ (exists l, sent (snd (Exists r k w)) = (sent w ++ l)%list /\
                length l = 1%nat /\ own l).
Proof.
  intros own.
  assert (forall w0, exists l, sent (snd (Get r k w0)) = (sent w0 ++ l)%list /\
             (length l <= 2)%nat /\ own l) as HG.
  { intros w0. eexists. split; [apply Get_sent |].
    destruct (snd (readReply r k w0)); [split; [simpl; lia | now repeat constructor] |].
    destruct (gobDecode _ _); [|split; [simpl; lia | now repeat constructor]].
    destruct (decide _); split; simpl; try lia; now repeat constructor. }
  assert (forall w0, exists l, sent (snd (Put r k v d w0)) = (sent w0 ++ l)%list /\
             (length l <= 1)%nat /\ own l) as HP.
  { intros w0. eexists. split; [apply Put_sent |].
    destruct (gobEncode _ _) as [out [msg|]]; split; simpl; try lia;
      now repeat constructor. }
  split; [apply HG |]. split; [apply HP |]. split; [|split].
  - rewrite GetOrPut_eq. destruct (HG w) as (l1 & E1 & L1 & O1).
    destruct (fst (Get r k w)).
    + exists l1. simpl. split; [exact E1 |]. split; [lia | exact O1].
    + destruct (HP (snd (Get r k w))) as (l2 & E2 & L2 & O2).
      exists (l1 ++ l2)%list. simpl. rewrite E2, E1, <- app_assoc.
      split; [reflexivity |]. split; [rewrite length_app; lia |].
      now apply Forall_app.
  - exists [goredis.CmdDel (physKey r k)]. split; [apply Delete_sent |].
    split; [reflexivity | now repeat constructor].
  - exists [goredis.CmdExists (physKey r k)]. split; [|split; [reflexivity | now repeat constructor]].
    clear. open_world w. unfold Exists, goredis.Exists, goredis.roundTrip. go_unfold.
    now destruct fs as [|[e|] fs].
Qed.

(** X11. In sequential use the pool never holds more than one buffer:
    from a pool of at most one buffer, after any sequence of calls the pool
    holds at most one buffer. *)
Theorem pool_holds_at_most_one_buffer (ops : list Op) (w : World) :
  (length (bufPool w) <= 1)%nat ->
  (length (bufPool (run ops w)) <= 1)%nat.
Proof.
  assert (forall r k v d w0, (length (bufPool w0) <= 1)%nat ->
            (length (bufPool (snd (Put r k v d w0))) <= 1)%nat) as HP.
  { intros r k v d w0 Hl. rewrite Put_bufPool. unfold acquireBuffer.
    destruct (bufPool w0) as [|b rest] eqn:Eb; simpl in *;
      destruct (snd (gobEncode _ _)); simpl; rewrite ?Eb; simpl; lia. }
  revert w. induction ops as [|o ops IH]; intros w Hl; [exact Hl |].
  simpl. apply IH. destruct o; simpl; try exact Hl.
  - now rewrite Get_bufPool.
  - now apply HP.
  - rewrite GetOrPut_eq. destruct (fst (Get r k w)) eqn:Eg; simpl.
    + now rewrite Get_bufPool.
    + apply HP. now rewrite Get_bufPool.
  - unfold Delete. go_unfold.
    destruct (goredis.Del _ _) as [[msg|] cl]; simpl; [|exact Hl].
    unfold notacacheMiss. now destruct (String.eqb msg _).
  - unfold Exists. go_unfold.
    now destruct (goredis.Exists _ _) as [[res [msg|]] cl].
  - unfold Flush. go_unfold.
    now destruct (goredis.FlushDB _) as [[msg|] cl].
Qed.

(** X12. Logical keys of one handle do not alias: different logical
    keys have different physical keys, so a [Put] or a [Delete] of one
    key leaves what is stored under any other key of the same handle as
    it was. *)
Theorem logical_keys_do_not_alias (r : redisCache) (k k' : string) :
  k <> k' ->
  physKey r k <> physKey r k'
  /\ (forall v d w,
        theDb (snd (Put r k v d w)) !! physKey r k' = theDb w !! physKey r k')
  /\ (forall w,
        theDb (snd (Delete r k w)) !! physKey r k' = theDb w !! physKey r k').
Proof.
  intros Hne.
  assert (physKey r k <> physKey r k') as Hp.
  { unfold physKey. intros E. apply Hne. exact (String.app_inj _ _ _ E). }
  split; [exact Hp |]. split.
  - intros v d w.
    destruct (gobEncode (gobTypes w) (mkEntry d v)) as [out [msg|]] eqn:E.
    + rewrite (Put_encode_error _ _ _ _ _ _ _ E). unfold theDb. simpl.
      now rewrite acquireBuffer_provider.
    + rewrite (Put_encoded _ _ _ _ _ _ E). unfold theDb. simpl.
      rewrite goredis_facts.Set_db.
      destruct (fst (goredis.Set_ _ _ _ _)); [reflexivity |].
      now rewrite lookup_insert_ne.
  - intros w. open_world w. unfold Delete, goredis.Del, goredis.roundTrip.
    go_unfold. destruct fs as [|[e|] fs]; simpl;
      try (unfold notacacheMiss; destruct (String.eqb e _)); simpl;
      try reflexivity; now rewrite lookup_delete_ne.
Qed.

(** ** The two revisions *)

(** The earlier [Get] leaves the world the current [Get] leaves, except
    that it has logged nothing, and returns the same value. *)
Lemma Legacy_Get_agrees r k w :
  Legacy.Get r k w = (fst (Get r k w), withLogger (logged w) (snd (Get r k w))).
Proof.
  destruct w as [[n lg c cl] reg pool].
  unfold Legacy.Get, Get, logged. go_unfold.
  destruct (goredis.Get _ _) as [[bs [msg|]] cl1]; simpl.
  - unfold notacacheMiss. now destruct (String.eqb msg _).
  - destruct (gobDecode reg bs) as [e|msg]; simpl; [|reflexivity].
    destruct (decide _); simpl; [|reflexivity].
    now destruct (goredis.Expire _ _ _) as [[msg|] cl2].
Qed.

(** The earlier [Put] leaves the world the current [Put] leaves and fails
    exactly when it does. *)
Lemma Legacy_Put_agrees r k v d w :
  snd (Legacy.Put r k v d w) = snd (Put r k v d w) /\
  (fst (Legacy.Put r k v d w) = None <-> fst (Put r k v d w) = None).
Proof.
  unfold Legacy.Put, Put, bind, gets.
  destruct (acquireBuffer w) as [buf w1]. simpl.
  destruct (gobEncode (gobTypes w1) (mkEntry d v)) as [out [msg|]]; simpl.
  - unfold Name, ret. simpl. split; [reflexivity |]. split; discriminate.
  - unfold onClient, releaseBuffer, ret.
    destruct (goredis.Set_ _ _ _ _) as [err cl]. simpl. now split.
Qed.

(** X13. The earlier revision ([redis.go]) and the current one act alike
    on the store.  [Get] and [Exists] return the same answers and leave
    the same world, except that the earlier revision logs nothing; [Put]
    leaves the same world and fails in the same cases; [Delete] and
    [Flush] leave the same client (database, fault schedule and trace),
    the earlier revision dropping the reply. *)
Theorem revisions_act_alike_on_the_store
    (r : redisCache) (k : string) (v : option Data) (d : Duration) (w : World) :
  Legacy.Get r k w = (fst (Get r k w), withLogger (logged w) (snd (Get r k w)))
  /\ Legacy.Exists r k w =
     (fst (Exists r k w), withLogger (logged w) (snd (Exists r k w)))
  /\ snd (Legacy.Put r k v d w) = snd (Put r k v d w)
  /\ (fst (Legacy.Put r k v d w) = None <-> fst (Put r k v d w) = None)
  /\ client (provider (snd (Legacy.Delete r k w))) =
     client (provider (snd (Delete r k w)))
  /\ client (provider (snd (Legacy.Flush r w))) =
     client (provider (snd (Flush r w))).
Proof.
  split; [apply Legacy_Get_agrees |]. split; [|split; [|split; [|split]]].
  - destruct w as [[n lg c cl] reg pool].
    unfold Legacy.Exists, Exists, logged. go_unfold.
    now destruct (goredis.Exists _ _) as [[res [msg|]] cl1].
  - apply Legacy_Put_agrees.
  - apply Legacy_Put_agrees.
  - unfold Legacy.Delete, Delete. go_unfold.
    destruct (goredis.Del _ _) as [[msg|] cl1]; simpl; [|reflexivity].
    unfold notacacheMiss. now destruct (String.eqb msg _).
  - unfold Legacy.Flush, Flush. go_unfold.
    now destruct (goredis.FlushDB _) as [[msg|] cl1].
Qed.

(** X14. Where the revisions part: when the key is absent and the value's
    type is not registered, the earlier [GetOrPut] returns the supplied
    value although nothing was stored (no [SET] was sent and the key is
    still absent), while the current [GetOrPut] returns nil and the
    encoder's error. *)
Theorem Legacy_GetOrPut_returns_a_value_it_did_not_store
    (r : redisCache) (k : string) (x : Data) (d : Duration) (w : World) :
  gob_refuses_unregistered Data ->
  typeOf x ∉ gobTypes w ->
  nextFault w = None ->
  theDb w !! physKey r k = None ->
  fst (Legacy.GetOrPut r k (Some x) d w) = Some x
  /\ theDb (snd (Legacy.GetOrPut r k (Some x) d w)) !! physKey r k = None
  /\ sent (snd (Legacy.GetOrPut r k (Some x) d w)) =
     (sent w ++ [goredis.CmdGet (physKey r k)])%list
  /\ exists msg,
       fst (GetOrPut r k (Some x) d w) =
       (None, Some (fmtErr (cache.Name (cfg (provider w))) msg)).
Proof.
  intros Hgob Hx Hf Hk.
  destruct (Get_miss r k w Hf Hk) as [Hg _].
  assert (snd (readReply r k w) = Some goredis.Nil) as Hr
    by now rewrite (readReply_reachable _ _ _ Hf), Hk.
  set (w0 := snd (Get r k w)).
  assert (gobTypes w0 = gobTypes w) as Hg0 by apply Get_gobTypes.
  assert (theDb w0 !! physKey r k = None) as Hk0.
  { pose proof (Get_payloads r k w (physKey r k)) as Hp. fold w0 in Hp.
    rewrite Hk in Hp. now destruct (theDb w0 !! physKey r k). }
  assert (sent w0 = (sent w ++ [goredis.CmdGet (physKey r k)])%list) as Hs0
    by (unfold w0; now rewrite Get_sent, Hr).
  destruct (Hgob (gobTypes w) d x Hx) as [msg Hmsg].
  destruct (gobEncode (gobTypes w) (mkEntry d (Some x))) as [out err] eqn:E.
  simpl in Hmsg. subst err.
  split; [|split; [|split]].
  - rewrite Legacy_GetOrPut_discards_the_Put_error, Legacy_Get_agrees. simpl.
    now rewrite Hg.
  - unfold Legacy.GetOrPut, bind. rewrite Legacy_Get_agrees, Hg. fold w0.
    destruct (Legacy_Put_agrees r k (Some x) d (withLogger (logged w) w0)) as [Hw _].
    destruct (Legacy.Put r k (Some x) d (withLogger (logged w) w0)) as [e1 w1].
    simpl in *. subst w1.
    rewrite (Put_encode_error r k (Some x) d (withLogger (logged w) w0) out msg)
      by (simpl; now rewrite Hg0).
    unfold theDb in *. simpl. now rewrite acquireBuffer_provider.
  - unfold Legacy.GetOrPut, bind. rewrite Legacy_Get_agrees, Hg. fold w0.
    destruct (Legacy_Put_agrees r k (Some x) d (withLogger (logged w) w0)) as [Hw _].
    destruct (Legacy.Put r k (Some x) d (withLogger (logged w) w0)) as [e1 w1].
    simpl in *. subst w1.
    rewrite (Put_encode_error r k (Some x) d (withLogger (logged w) w0) out msg)
      by (simpl; now rewrite Hg0).
    simpl. rewrite acquireBuffer_sent. exact Hs0.
  - exists msg. rewrite GetOrPut_eq, Hg. simpl. fold w0.
    rewrite (Put_encode_error r k (Some x) d w0 out msg) by now rewrite Hg0.
    simpl. unfold w0. now rewrite Get_cfg_same.
Qed.

End StoreFacts.


(** ** More on [Get] after [Put] *)

Section RefreshFacts.

Context {Data : Type} `{Gob Data}.



(** X21. An entry whose bytes do not decode (corrupt, or of a type this
    process has not registered) reads as a miss, with one line logged,
    while [Exists] answers true; [GetOrPut] then overwrites it: with no
    fault scheduled and a pool of empty buffers it returns the supplied
    value and the key holds the new entry. *)
Theorem undecodable_entry_is_overwritten_by_GetOrPut
    (r : redisCache) (k : string) (v : option Data) (d : Duration) (w : World)
    (s : goredis.Stored) (msg : string) (out : list byte) :
  quiet w ->
  pool_clean w ->
  theDb w !! physKey r k = Some s ->
  gobDecode (gobTypes w) (goredis.payload s) = Err msg ->
  gobEncode (gobTypes w) (mkEntry d v) = (out, None) ->
  fst (Get r k w) = None
  /\ logged (snd (Get r k w)) =
     (logged w ++ [fmtErr (cache.Name (cfg (provider w))) msg])%list
  /\ fst (Exists r k w) = true
  /\ fst (GetOrPut r k v d w) = (v, None)
  /\ theDb (snd (GetOrPut r k v d w)) !! physKey r k =
     Some (goredis.mkStored out d).
Proof.
  intros Hq Hc Hk Hd E.
  pose proof (quiet_nextFault _ Hq) as Hf.
  assert (readReply r k w = (goredis.payload s, None)) as Hr
    by now rewrite (readReply_reachable _ _ _ Hf), Hk.
  assert (fst (Get r k w) = None) as Hg.
  { apply (Get_decode_error r k w msg); now rewrite Hr. }
  split; [exact Hg |]. split.
  { revert Hr Hd. unfold readReply, physKey, Get, logged. go_unfold.
    destruct (goredis.Get _ _) as [[bs err] cl]. simpl.
    intros [= -> ->] Hd. simpl. now rewrite Hd. }
  split; [now rewrite (Exists_reachable _ _ _ Hf), Hk |].
  set (w0 := snd (Get r k w)).
  assert (quiet w0) as Hq0 by now apply Get_quiet.
  assert (pool_clean w0) as Hc0 by (unfold pool_clean, w0; now rewrite Get_bufPool).
  assert (gobEncode (gobTypes w0) (mkEntry d v) = (out, None)) as E0
    by (unfold w0; now rewrite Get_gobTypes).
  assert (fst (Put r k v d w0) = None) as Hp.
  { rewrite (Put_encoded _ _ _ _ _ _ E0). simpl.
    rewrite goredis_facts.Set_error. exact (quiet_nextFault _ Hq0). }
  rewrite GetOrPut_eq, Hg. simpl. fold w0. rewrite Hp.
  split; [reflexivity |]. simpl.
  destruct (Put_success_inv _ _ _ _ _ Hp) as (out' & E' & _ & Hdb).
  rewrite E0 in E'. injection E' as <-.
  rewrite Hdb, lookup_insert_eq.
  now rewrite (proj1 (acquireBuffer_clean w0 Hc0)).
Qed.

End RefreshFacts.

(** ** Names without the separator *)

Section SeparatorFacts.

Context {Data : Type} `{Gob Data}.

(** X19. Caches whose names differ and do not contain the separator "-"
    share no physical key, whatever the logical keys: a [Put] through one
    handle, under any key, leaves every key of the other handle as it was,
    and a [Get] through the other handle of a key that was not in the
    store returns nil afterwards. *)
Theorem separator_free_names_isolate_all_keys
    (cA cB : cache.Config) (wA wB : World) :
  cache.Name cA <> cache.Name cB ->
  ~ has_separator (cache.Name cA) ->
  ~ has_separator (cache.Name cB) ->
  (forall k1 k2, physKey (handle cA wA) k1 <> physKey (handle cB wB) k2)
  /\ (forall k1 k2 (v : option Data) d w,
        theDb (snd (Put (handle cA wA) k1 v d w)) !! physKey (handle cB wB) k2 =
        theDb w !! physKey (handle cB wB) k2)
  /\ (forall k1 k2 (v : option Data) d w,
        nextFault (snd (Put (handle cA wA) k1 v d w)) = None ->
        theDb w !! physKey (handle cB wB) k2 = None ->
        fst (Get (handle cB wB) k2 (snd (Put (handle cA wA) k1 v d w))) = None).
Proof.
  intros Hne HA HB.
  pose proof (names_without_separator_never_collide cA cB wA wB Hne HA HB) as Hk.
  split; [exact Hk |]. split.
  - intros k1 k2 v d w. apply Put_db_other. intros E. exact (Hk k1 k2 (eq_sym E)).
  - intros k1 k2 v d w Hf Habs.
    apply (Get_read_error _ _ _ goredis.Nil).
    rewrite (readReply_reachable _ _ _ Hf).
    rewrite Put_db_other; [now rewrite Habs |].
    intros E. exact (Hk k1 k2 (eq_sym E)).
Qed.

End SeparatorFacts.

(** * Initialisation *)

Section InitFacts.

Context `{Runtime}.

(** [Init], by cases on the provider-name test and on the ping. *)
Lemma Init_eq pn appCfg lg b :
  Init pn appCfg lg b =
  if isRedis pn appCfg then
    let opts := optionsOf pn appCfg in
    let p := Ping (NewClient opts) in
    match fst p with
    | Some msg =>
        (Some (fmtErr pn msg),
         mkBoot pn lg (Some appCfg) (Some (snd p)) (Some opts) (bGobTypes b))
    | None =>
        (None,
         mkBoot pn
                (lg ++ ["aah/cache/provider: " +:+ pn +:+
                        " connected successfully with " +:+ options.Addr opts])
                (Some appCfg) (Some (snd p)) (Some opts)
                ({[entryTypeName]} ∪ bGobTypes b))
    end
  else
    (Some "aah/cache: not a vaild provider name, expected 'redis'",
     mkBoot pn lg (Some appCfg) (bClient b) (bClientOpts b) (bGobTypes b)).
Proof.
  unfold Init, isRedis. simpl.
  destruct (String.eqb _ "redis"); simpl; [|reflexivity].
  fold (optionsOf pn appCfg).
  now destruct (Ping (NewClient (optionsOf pn appCfg))) as [[msg|] cl].
Qed.

(** X15. A failed [Init] registers nothing with gob and logs nothing,
    and its error tells the two failures apart.  Either the configured
    provider name, lower-cased, is not "redis": the error is the fixed
    message and no client was created ([Client()] and the options are what
    they were, nil on a fresh provider).  Or the name passed and the ping
    failed: the error is the ping's, prefixed with the provider name, and
    the client and its options stay assigned.  In both cases the name, the
    configuration and the logger passed in have been assigned. *)
Theorem Init_failure_registers_and_logs_nothing
    (pn : string) (appCfg : config.Config) (lg : list string) (b : Boot)
    (e : string) :
  fst (Init pn appCfg lg b) = Some e ->
  bGobTypes (snd (Init pn appCfg lg b)) = bGobTypes b
  /\ bLogger (snd (Init pn appCfg lg b)) = lg
  /\ bName (snd (Init pn appCfg lg b)) = pn
  /\ bAppCfg (snd (Init pn appCfg lg b)) = Some appCfg
  /\ ((isRedis pn appCfg = false /\
       e = "aah/cache: not a vaild provider name, expected 'redis'" /\
       Client (snd (Init pn appCfg lg b)) = Client b /\
       bClientOpts (snd (Init pn appCfg lg b)) = bClientOpts b)
      \/
      (isRedis pn appCfg = true /\
       (exists msg,
           fst (Ping (NewClient (optionsOf pn appCfg))) = Some msg /\
           e = fmtErr pn msg) /\
       Client (snd (Init pn appCfg lg b)) =
         Some (snd (Ping (NewClient (optionsOf pn appCfg)))) /\
       bClientOpts (snd (Init pn appCfg lg b)) = Some (optionsOf pn appCfg))).
Proof.
  rewrite Init_eq. destruct (isRedis pn appCfg); simpl.
  - destruct (fst (Ping (NewClient (optionsOf pn appCfg)))) as [msg|] eqn:Hp;
      simpl; [|discriminate].
    intros [= <-]. repeat split. right. repeat split. now exists msg.
  - intros [= <-]. repeat split. left. now repeat split.
Qed.

(** X16. [Init] returns no error exactly when the provider name passes
    and the ping succeeds.  It then has registered [entry] with gob on top
    of what was registered, logged one line naming the provider and the
    address, and [Client()] is the client that answered the ping.
    Whatever its outcome, [Init] removes nothing from gob's registry. *)
Theorem Init_succeeds_iff_named_redis_and_reachable
    (pn : string) (appCfg : config.Config) (lg : list string) (b : Boot) :
  (fst (Init pn appCfg lg b) = None <->
   isRedis pn appCfg = true /\
   fst (Ping (NewClient (optionsOf pn appCfg))) = None)
  /\ (fst (Init pn appCfg lg b) = None ->
       bGobTypes (snd (Init pn appCfg lg b)) = {[entryTypeName]} ∪ bGobTypes b /\
       bLogger (snd (Init pn appCfg lg b)) =
         (lg ++ ["aah/cache/provider: " +:+ pn +:+
                 " connected successfully with " +:+
                 options.Addr (optionsOf pn appCfg)])%list /\
       Client (snd (Init pn appCfg lg b)) =
         Some (snd (Ping (NewClient (optionsOf pn appCfg)))))
  /\ bGobTypes b ⊆ bGobTypes (snd (Init pn appCfg lg b)).
Proof.
  rewrite Init_eq.
  destruct (isRedis pn appCfg); simpl.
  - destruct (fst (Ping (NewClient (optionsOf pn appCfg)))) as [msg|]; simpl.
    + split; [split; [discriminate | intros [_ ?]; discriminate] |].
      split; [discriminate | reflexivity].
    + split; [now split |]. split; [now repeat split |].
      apply union_subseteq_r.
  - split; [split; [discriminate | intros [? _]; discriminate] |].
    split; [discriminate | reflexivity].
Qed.

(** [parseDuration] returns a parsed duration as soon as its fallback
    parses. *)
Lemma parseDuration_parsed v f :
  snd (ParseDuration f) = None -> parsed (parseDuration v f).
Proof.
  unfold parsed, parseDuration. intros Hf.
  destruct (ParseDuration v) as [d [msg|]] eqn:E.
  - exists f. destruct (ParseDuration f) as [df ef]. simpl in *. now subst ef.
  - now exists v.
Qed.

(** X17. A duration in the configuration that does not parse neither
    fails [Init] nor leaves a timeout unset: [parseDuration] returns the
    parse of the value when it parses and the parse of the fallback
    otherwise, so that, the built-in fallbacks being valid durations, every
    duration option [Init] builds is a successfully parsed duration. *)
Theorem Init_durations_are_always_parsed (pn : string) (appCfg : config.Config) :
  Forall (fun f => snd (ParseDuration f) = None) defaultDurations ->
  Forall parsed (durations (optionsOf pn appCfg))
  /\ (forall v f d, ParseDuration v = (d, None) -> parseDuration v f = d)
  /\ (forall v f, snd (ParseDuration v) <> None ->
        parseDuration v f = fst (ParseDuration f)).
Proof.
  intros Hd. split; [|split].
  - unfold defaultDurations in Hd.
    repeat match goal with
           | Hx : Forall _ (_ :: _) |- _ => inversion Hx; subst; clear Hx
           end.
    unfold durations, optionsOf. simpl.
    repeat constructor; now apply parseDuration_parsed.
  - intros v f d E. unfold parseDuration. now rewrite E.
  - intros v f Hv. unfold parseDuration.
    destruct (ParseDuration v) as [d [msg|]]; [reflexivity | now simpl in Hv].
Qed.

End InitFacts.

Section InitThenPut.

Context `{Runtime} {Data : Type} `{Gob Data}.

(** X18. [Init] registers [entry] and nothing else: a value whose type
    was not registered before [Init], and is not [entry], is still refused
    by [Put] afterwards, with the encoder's error and without a command
    sent, in any world whose registry is the one [Init] left. *)
Theorem Init_registers_no_application_type
    (pn : string) (appCfg : config.Config) (lg : list string) (b : Boot)
    (r : redisCache) (k : string) (x : Data) (d : Duration) (w : World) :
  gob_refuses_unregistered Data ->
  typeOf x ∉ bGobTypes b ->
  typeOf x <> entryTypeName ->
  gobTypes w = bGobTypes (snd (Init pn appCfg lg b)) ->
  (exists msg,
      fst (Put r k (Some x) d w) =
      Some (fmtErr (cache.Name (cfg (provider w))) msg))
  /\ sent (snd (Put r k (Some x) d w)) = sent w.
Proof.
  intros Hgob Hx Hne Hw.
  assert (typeOf x ∉ gobTypes w) as Hx'.
  { rewrite Hw, Init_eq.
    destruct (isRedis pn appCfg); simpl; [|exact Hx].
    destruct (fst (Ping _)); simpl; [exact Hx |].
    intros [Hin | Hin]%elem_of_union; [|contradiction].
    apply elem_of_singleton in Hin. contradiction. }
  destruct (Hgob (gobTypes w) d x Hx') as [msg Hmsg].
  destruct (gobEncode (gobTypes w) (mkEntry d (Some x))) as [out err] eqn:E.
  simpl in Hmsg. subst err.
  rewrite (Put_encode_error _ _ _ _ _ _ _ E). simpl.
  split; [now exists msg | apply acquireBuffer_sent].
Qed.

End InitThenPut.

(** ** The further properties on the concrete instance *)

Module MoreDemoFacts.

Import Demo DemoBoot.

Ltac evaluate := vm_compute; reflexivity.

Lemma world0_clean : pool_clean world0.
Proof. unfold pool_clean. simpl. constructor. Qed.

Lemma Put_stores_the_encoded_entry_witness :
  nextFault world0 = None
  /\ fst (Put c1 "key1" int1 (seconds 3) world0) = None
  /\ theDb (snd (Put c1 "key1" int1 (seconds 3) world0)) !! "cache1-key1" =
     Some (goredis.mkStored
             (fst (gobEncode (gobTypes world0) (mkEntry (seconds 3) int1)))
             (seconds 3)).
Proof.
  assert (nextFault world0 = None) as Hf by evaluate.
  assert (gobEncode (gobTypes world0) (mkEntry (seconds 3) int1) =
          (fst (gobEncode (gobTypes world0) (mkEntry (seconds 3) int1)), None))
    as E by evaluate.
  pose proof (Put_stores_the_encoded_entry c1 "key1" int1 (seconds 3) world0
                _ E Hf) as (Hp & _ & _ & Hk).
  split; [exact Hf |]. split; [exact Hp |]. exact (Hk world0_clean).
Defined.

Lemma Put_then_Exists_witness :
  fst (Put c1 "key1" int1 (seconds 3) world0) = None
  /\ fst (Exists c1 "key1" (snd (Put c1 "key1" int1 (seconds 3) world0))) = true.
Proof.
  assert (fst (Put c1 "key1" int1 (seconds 3) world0) = None) as Hp by evaluate.
  split; [exact Hp |].
  apply (Put_then_Exists c1 "key1" int1 (seconds 3) world0 Hp). evaluate.
Defined.

Lemma Delete_then_miss_witness :
  nextFault worldSlide = None
  /\ fst (Get c1 "key1" worldSlide) = int1
  /\ fst (Get c1 "key1" (snd (Delete c1 "key1" worldSlide))) = None
  /\ fst (Exists c1 "key1" (snd (Delete c1 "key1" worldSlide))) = false.
Proof.
  assert (nextFault worldSlide = None) as Hf by evaluate.
  assert (nextFault (snd (Delete c1 "key1" worldSlide)) = None)
    as Hf' by evaluate.
  pose proof (Delete_then_miss (Data := value) c1 "key1" worldSlide Hf Hf')
    as (Hg & _ & He & _).
  split; [exact Hf |]. split; [evaluate |]. split; [exact Hg | exact He].
Defined.

Lemma Flush_empties_every_namespace_witness :
  nextFault worldSlide = None
  /\ fst (Exists c1 "key1" worldSlide) = true
  /\ fst (Exists c1 "key1" (snd (Flush (handle cfgA world0) worldSlide))) = false.
Proof.
  assert (nextFault worldSlide = None) as Hf by evaluate.
  pose proof (Flush_empties_every_namespace (Data := value)
                (handle cfgA world0) worldSlide Hf) as (_ & _ & _ & Hall).
  assert (nextFault (snd (Flush (handle cfgA world0) worldSlide))
          = None) as Hf' by evaluate.
  split; [exact Hf |]. split; [evaluate |].
  exact (proj2 (Hall c1 "key1" Hf')).
Defined.

Lemma Flush_returns_every_error_witness :
  nextFault (withFaults [Some "redis: nil"] worldSlide) = Some "redis: nil"
  /\ fst (Flush c1 (withFaults [Some "redis: nil"] worldSlide)) =
     Some "aah/cache/addgetcache: redis: nil"
  /\ fst (Delete c1 "key1"
            (withFaults [Some "redis: nil"] worldSlide)) = None.
Proof.
  assert (nextFault (withFaults [Some "redis: nil"] worldSlide) = Some "redis: nil")
    as Hf by evaluate.
  pose proof (Flush_returns_every_error c1 _ _ Hf) as (Hr & _ & Hd).
  split; [exact Hf |]. split; [exact Hr |]. exact (Hd "key1" eq_refl).
Defined.


(** [GetOrPut] does take three round trips: in sliding mode, on a key
    that holds an entry whose value is nil. *)
Lemma operations_address_their_own_key_witness :
  sent (snd (GetOrPut c1 "key1" int1 (seconds 3)
               (snd (Put c1 "key1" None (seconds 3) (snd (Create cfgSlide world0))))))
  = (sent (snd (Put c1 "key1" None (seconds 3) (snd (Create cfgSlide world0)))) ++
     [goredis.CmdGet "cache1-key1";
      goredis.CmdExpire "cache1-key1" (seconds 3);
      goredis.CmdSet "cache1-key1"
        (fst (gobEncode basicTypes (mkEntry (seconds 3) int1))) (seconds 3)])%list
  /\ exists l,
       sent (snd (GetOrPut c1 "key1" int1 (seconds 3) worldNil)) =
       (sent worldNil ++ l)%list /\ (length l <= 3)%nat.
Proof.
  split; [evaluate |].
  destruct (proj1 (proj2 (proj2
    (operations_address_their_own_key c1 "key1" int1 (seconds 3) worldNil))))
    as (l & E & L & _).
  exists l. now split.
Defined.

Lemma pool_holds_at_most_one_buffer_witness :
  (length (bufPool world0) <= 1)%nat
  /\ (length (bufPool
        (run [OpPut c1 "key1" int1 (seconds 3);
              OpPut c1 "key2" int1 (seconds 3);
              OpPut c1 "pre-test-key1" sample1 (seconds 3);
              OpGetOrPut c1 "key3" int1 (seconds 3)] world0)) <= 1)%nat.
Proof.
  assert (length (bufPool world0) <= 1)%nat as Hl by (simpl; lia).
  split; [exact Hl |].
  exact (pool_holds_at_most_one_buffer (Data := value) _ world0 Hl).
Defined.

Lemma logical_keys_do_not_alias_witness :
  "key1" <> "key2"
  /\ physKey c1 "key1" <> physKey c1 "key2".
Proof.
  assert ("key1" <> "key2") as Hne by discriminate.
  split; [exact Hne |].
  exact (proj1 (logical_keys_do_not_alias (Data := value) c1 "key1" "key2" Hne)).
Defined.

Lemma Legacy_GetOrPut_returns_a_value_it_did_not_store_witness :
  (typeOf (VSample "Jeeva" true) ∉ gobTypes world0)
  /\ fst (Legacy.GetOrPut c1 "key5" sample1 (seconds 3) world0) = sample1
  /\ theDb (snd (Legacy.GetOrPut c1 "key5" sample1 (seconds 3) world0))
       !! physKey c1 "key5" = None.
Proof.
  assert (typeOf (VSample "Jeeva" true) ∉ gobTypes world0) as Hx
    by (apply (bool_decide_unpack _); vm_compute; exact I).
  assert (nextFault world0 = None) as Hf by evaluate.
  assert (theDb world0 !! physKey c1 "key5" = None) as Hk by evaluate.
  pose proof (Legacy_GetOrPut_returns_a_value_it_did_not_store c1 "key5"
                (VSample "Jeeva" true) (seconds 3) world0 DemoFacts.gob_refuses Hx
                Hf Hk) as (H1 & H2 & _).
  split; [exact Hx |]. split; [exact H1 | exact H2].
Defined.

Lemma separator_free_names_isolate_all_keys_witness :
  cache.Name cfg1 <> cache.Name cfgSlide
  /\ ~ has_separator (cache.Name cfg1)
  /\ ~ has_separator (cache.Name cfgSlide)
  /\ physKey (handle cfg1 world0) "a-b" <> physKey (handle cfgSlide world0) "c".
Proof.
  assert (cache.Name cfg1 <> cache.Name cfgSlide) as Hne by discriminate.
  assert (~ has_separator (cache.Name cfg1)) as HA
    by (unfold has_separator; apply (bool_decide_unpack _); vm_compute; exact I).
  assert (~ has_separator (cache.Name cfgSlide)) as HB
    by (unfold has_separator; apply (bool_decide_unpack _); vm_compute; exact I).
  split; [exact Hne |]. split; [exact HA |]. split; [exact HB |].
  exact (proj1 (separator_free_names_isolate_all_keys (Data := value)
                  cfg1 cfgSlide world0 world0 Hne HA HB) "a-b" "c").
Defined.

Lemma Init_failure_registers_and_logs_nothing_witness :
  fst (@Init rtDown "redis1" appRedis [] fresh) =
    Some "aah/cache/redis1: dial tcp: connection refused"
  /\ bGobTypes (snd (@Init rtDown "redis1" appRedis [] fresh)) = bGobTypes fresh
  /\ fst (@Init rtUp "redis1" appOther [] fresh) =
     Some "aah/cache: not a vaild provider name, expected 'redis'"
  /\ bLogger (snd (@Init rtUp "redis1" appOther [] fresh)) = [].
Proof.
  assert (fst (@Init rtDown "redis1" appRedis [] fresh) =
          Some "aah/cache/redis1: dial tcp: connection refused") as H1 by evaluate.
  assert (fst (@Init rtUp "redis1" appOther [] fresh) =
          Some "aah/cache: not a vaild provider name, expected 'redis'")
    as H2 by evaluate.
  split; [exact H1 |].
  split; [exact (proj1 (@Init_failure_registers_and_logs_nothing rtDown
                          "redis1" appRedis [] fresh _ H1)) |].
  split; [exact H2 |].
  exact (proj1 (proj2 (@Init_failure_registers_and_logs_nothing rtUp
                         "redis1" appOther [] fresh _ H2))).
Defined.

Lemma Init_succeeds_iff_named_redis_and_reachable_witness :
  fst (@Init rtUp "redis1" appRedis [] fresh) = None
  /\ bLogger (snd (@Init rtUp "redis1" appRedis [] fresh)) =
     ["aah/cache/provider: redis1 connected successfully with localhost:6379"].
Proof.
  assert (fst (@Init rtUp "redis1" appRedis [] fresh) = None) as Hi.
  { apply (proj1 (@Init_succeeds_iff_named_redis_and_reachable rtUp
                    "redis1" appRedis [] fresh)).
    split; evaluate. }
  split; [exact Hi |].
  exact (proj1 (proj2 (proj1 (proj2
           (@Init_succeeds_iff_named_redis_and_reachable rtUp
              "redis1" appRedis [] fresh)) Hi))).
Defined.

Lemma Init_durations_are_always_parsed_witness :
  Forall (fun f => snd (@ParseDuration rtUp f) = None) defaultDurations
  /\ options.ReadTimeout (@optionsOf rtUp "redis1" appRedis) = 3000000000
  /\ Forall (@parsed rtUp) (durations (@optionsOf rtUp "redis1" appRedis)).
Proof.
  assert (Forall (fun f => snd (@ParseDuration rtUp f) = None) defaultDurations)
    as Hd by (repeat constructor).
  split; [exact Hd |]. split; [evaluate |].
  exact (proj1 (@Init_durations_are_always_parsed rtUp "redis1" appRedis Hd)).
Defined.

Lemma Init_registers_no_application_type_witness :
  (typeOf (VSample "Jeeva" true) ∉ bGobTypes fresh)
  /\ fst (@Init rtUp "redis1" appRedis [] fresh) = None
  /\ sent (snd (Put c1 "pre-test-key1" sample1 (seconds 3)
                  (mkWorld (provider world0)
                           (bGobTypes (snd (@Init rtUp "redis1" appRedis [] fresh)))
                           []))) = [].
Proof.
  assert (typeOf (VSample "Jeeva" true) ∉ bGobTypes fresh) as Hx
    by (apply (bool_decide_unpack _); vm_compute; exact I).
  assert (typeOf (VSample "Jeeva" true) <> entryTypeName) as Hne by discriminate.
  split; [exact Hx |]. split; [evaluate |].
  exact (proj2 (@Init_registers_no_application_type rtUp value gob
                  "redis1" appRedis [] fresh c1 "pre-test-key1"
                  (VSample "Jeeva" true) (seconds 3)
                  (mkWorld (provider world0)
                           (bGobTypes (snd (@Init rtUp "redis1" appRedis [] fresh)))
                           [])
                  DemoFacts.gob_refuses Hx Hne eq_refl)).
Defined.


(** A writer that registered [redis.sample] stored a sample under [key5];
    the reader below did not register the type. *)
Lemma undecodable_entry_is_overwritten_by_GetOrPut_witness :
  quiet (mkWorld
           (provider (snd (Put c1 "key5" sample1 (seconds 3)
                             (mkWorld (provider world0)
                                      ({["redis.sample"]} ∪ basicTypes) []))))
           basicTypes [])
  /\ fst (Get c1 "key5"
            (mkWorld
               (provider (snd (Put c1 "key5" sample1 (seconds 3)
                                 (mkWorld (provider world0)
                                          ({["redis.sample"]} ∪ basicTypes) []))))
               basicTypes [])) = None
  /\ fst (GetOrPut c1 "key5" int1 (seconds 3)
            (mkWorld
               (provider (snd (Put c1 "key5" sample1 (seconds 3)
                                 (mkWorld (provider world0)
                                          ({["redis.sample"]} ∪ basicTypes) []))))
               basicTypes [])) = (int1, None).
Proof.
  set (w := mkWorld
              (provider (snd (Put c1 "key5" sample1 (seconds 3)
                                (mkWorld (provider world0)
                                         ({["redis.sample"]} ∪ basicTypes) []))))
              basicTypes []).
  assert (quiet w) as Hq by evaluate.
  assert (pool_clean w) as Hc by (unfold pool_clean; simpl; constructor).
  assert (theDb w !! physKey c1 "key5" =
          Some (goredis.mkStored
                  (fst (gobEncode ({["redis.sample"]} ∪ basicTypes)
                          (mkEntry (seconds 3) sample1)))
                  (seconds 3))) as Hk by evaluate.
  assert (gobDecode (gobTypes w)
            (goredis.payload
               (goredis.mkStored
                  (fst (gobEncode ({["redis.sample"]} ∪ basicTypes)
                          (mkEntry (seconds 3) sample1)))
                  (seconds 3))) =
          Err "gob: name not registered for interface: redis.sample")
    as Hd by evaluate.
  assert (gobEncode (gobTypes w) (mkEntry (seconds 3) int1) =
          (fst (gobEncode (gobTypes w) (mkEntry (seconds 3) int1)), None))
    as E by evaluate.
  pose proof (undecodable_entry_is_overwritten_by_GetOrPut c1 "key5" int1
                (seconds 3) w _ _ _ Hq Hc Hk Hd E) as (Hg & _ & _ & Hgp & _).
  split; [exact Hq |]. split; [exact Hg | exact Hgp].
Defined.

End MoreDemoFacts.
